(** * Repeated-measures Bland-Altman analysis: a verified model of
      [RepBlandAltman.py]

    The development embeds the five functions of the script
    ([observations], [ANOVA_MS], [RBA_SD], [RBA_values],
    [commonSenseTesting]) and settles the statements of the specification
    against them.

    Numeric conventions.
    - [int64] values are integers of [Z]; every numpy operation on them is
      followed by its two's-complement wrap-around ([wrap64]).
    - [float64] values are modelled by [npfloat]: a real number, or one of
      the special values negative zero, plus or minus infinity and NaN.
      The arithmetic on finite values is exact; rounding, overflow to
      infinity and underflow to zero are not modelled.  The special values
      follow IEEE 754, which is what numpy implements, so a division by
      zero or the square root of a negative number yields a value and
      never an exception.
    - The values of a dataset are finite floats and are modelled by reals;
      the subject identifiers are strings.

    Where a statement depends on what the exact arithmetic leaves out, it
    carries the hypothesis that keeps it within what the code computes:
    integers below 2^53 where a conversion to float64 has to be exact,
    non-negative mean squares and counts of at least 1 where the sign of
    the total variance matters, identifiers without regular-expression
    metacharacters where [str.count] has to count an identifier as such.
    Equalities between finite results are equalities of the exact values;
    the code's result is their float64 rounding. *)

From Stdlib Require Import Reals Lra Lia ZArith List String Ascii Bool.
From Stdlib Require Import Permutation.
Import ListNotations.

Set Implicit Arguments.

(** ** int64 arithmetic, as numpy performs it *)

Module Int64.

Local Open Scope Z_scope.

Definition modulus : Z := 2 ^ 64.
Definition half_modulus : Z := 2 ^ 63.
Definition max_signed : Z := 2 ^ 63 - 1.
Definition min_signed : Z := - 2 ^ 63.

(** Two's-complement reduction of an integer to the int64 range. *)
Definition wrap64 (z : Z) : Z :=
  (z + half_modulus) mod modulus - half_modulus.

Definition in_range (z : Z) : Prop := min_signed <= z <= max_signed.

Definition add (a b : Z) : Z := wrap64 (a + b).
Definition sub (a b : Z) : Z := wrap64 (a - b).
Definition mul (a b : Z) : Z := wrap64 (a * b).

(** [np.square] on an int64 scalar. *)
Definition square (a : Z) : Z := mul a a.

(** [np.sum] / [ndarray.sum] of an int64 array: the accumulator is an
    int64, starting from zero. *)
Definition np_sum (l : list Z) : Z := fold_left add l 0.

End Int64.

(** ** float64 values and IEEE 754 special cases *)

Module Float.

Local Open Scope R_scope.

(** [Fin 0] is positive zero. *)
Inductive npfloat : Type :=
| Fin (r : R)
| NegZero
| PInf
| NInf
| NaN.

(** The shape of a float: what the special-case tables of IEEE 754
    dispatch on.  [VNum r] is only produced for [r <> 0]. *)
Inductive view : Type :=
| VNaN
| VInf (neg : bool)
| VZero (neg : bool)
| VNum (r : R).

Definition Rltb (a b : R) : bool := if Rlt_dec a b then true else false.
Definition Reqb (a b : R) : bool := if Req_dec_T a b then true else false.

Definition classify (x : npfloat) : view :=
  match x with
  | Fin r => if Reqb r 0 then VZero false else VNum r
  | NegZero => VZero true
  | PInf => VInf false
  | NInf => VInf true
  | NaN => VNaN
  end.

Definition fzero (neg : bool) : npfloat := if neg then NegZero else Fin 0.
Definition finf (neg : bool) : npfloat := if neg then NInf else PInf.
Definition negative (r : R) : bool := Rltb r 0.

(** Conversion of an int64 to float64.  It is exact in this model; numpy
    rounds to 53 significant bits, so the model is the code for integers
    of magnitude up to 2^53 ([exact_float]). *)
Definition of_int (z : Z) : npfloat := Fin (IZR z).

(** The integers that float64 holds exactly, whatever their factors. *)
Definition exact_float (z : Z) : Prop := (- 2 ^ 53 <= z <= 2 ^ 53)%Z.

Definition fneg (x : npfloat) : npfloat :=
  match classify x with
  | VNaN => NaN
  | VInf s => finf (negb s)
  | VZero s => fzero (negb s)
  | VNum r => Fin (- r)
  end.

Definition fadd (x y : npfloat) : npfloat :=
  match classify x, classify y with
  | VNaN, _ | _, VNaN => NaN
  | VInf s, VInf t => if Bool.eqb s t then finf s else NaN
  | VInf s, _ => finf s
  | _, VInf t => finf t
  | VZero s, VZero t => fzero (s && t)
  | VZero _, VNum b => Fin b
  | VNum a, VZero _ => Fin a
  | VNum a, VNum b => Fin (a + b)
  end.

Definition fsub (x y : npfloat) : npfloat := fadd x (fneg y).

Definition fmul (x y : npfloat) : npfloat :=
  match classify x, classify y with
  | VNaN, _ | _, VNaN => NaN
  | VInf _, VZero _ | VZero _, VInf _ => NaN
  | VInf s, VInf t => finf (xorb s t)
  | VInf s, VNum b => finf (xorb s (negative b))
  | VNum a, VInf t => finf (xorb (negative a) t)
  | VZero s, VZero t => fzero (xorb s t)
  | VZero s, VNum b => fzero (xorb s (negative b))
  | VNum a, VZero t => fzero (xorb (negative a) t)
  | VNum a, VNum b => Fin (a * b)
  end.

(** numpy's [true_divide] on float64: no exception, only special values. *)
Definition fdiv (x y : npfloat) : npfloat :=
  match classify x, classify y with
  | VNaN, _ | _, VNaN => NaN
  | VInf _, VInf _ => NaN
  | VZero _, VZero _ => NaN
  | VInf s, VZero t => finf (xorb s t)
  | VInf s, VNum b => finf (xorb s (negative b))
  | VZero s, VInf t => fzero (xorb s t)
  | VNum a, VInf t => fzero (xorb (negative a) t)
  | VNum a, VZero t => finf (xorb (negative a) t)
  | VZero s, VNum b => fzero (xorb s (negative b))
  | VNum a, VNum b => Fin (a / b)
  end.

(** [np.sqrt]: NaN on a negative argument, the argument itself on a zero
    of either sign. *)
Definition fsqrt (x : npfloat) : npfloat :=
  match classify x with
  | VNaN => NaN
  | VInf s => if s then NaN else PInf
  | VZero s => fzero s
  | VNum r => if negative r then NaN else Fin (sqrt r)
  end.

(** Strict comparison [x < y]; false as soon as one side is NaN, and the
    two zeros compare equal. *)
Definition flt (x y : npfloat) : bool :=
  match classify x, classify y with
  | VNaN, _ | _, VNaN => false
  | VInf s, VInf t => s && negb t
  | VInf s, _ => s
  | _, VInf t => negb t
  | VZero _, VZero _ => false
  | VZero _, VNum b => Rltb 0 b
  | VNum a, VZero _ => Rltb a 0
  | VNum a, VNum b => Rltb a b
  end.

Definition fgt (x y : npfloat) : bool := flt y x.

(** [np.int64 / np.int64] and [np.int64 / int]: both operands are
    converted to float64 and divided there. *)
Definition int_true_divide (a b : Z) : npfloat := fdiv (of_int a) (of_int b).

End Float.

(** ** Outcomes of a Python call *)

Module Py.

Inductive exn : Type :=
| ZeroDivisionError
| FileNotFoundError
| KeyError.

Inductive outcome (A : Type) : Type :=
| Returns (a : A)
| Raises (e : exn).

Arguments Raises {A} e.

Definition bind {A B} (m : outcome A) (k : A -> outcome B) : outcome B :=
  match m with
  | Returns a => k a
  | Raises e => Raises e
  end.

(** Python's [/] on two built-in integers. *)
Definition int_div (a b : Z) : outcome Float.npfloat :=
  if Z.eqb b 0 then Raises ZeroDivisionError
  else Returns (Float.int_true_divide a b).

End Py.

(** ** The dataset and the five functions of the script *)

Import Float Py.

(** One row of the long-format frame: the columns keep the names the
    script reads them by. *)
Record row : Type := Row { participants : string; variables : R }.

Definition Dataset : Type := list row.

(** *** Strings: [pd.unique] and [Series.str.count] *)

(** [pd.unique]: the distinct values in order of first appearance. *)
Fixpoint unique_aux (seen l : list string) : list string :=
  match l with
  | [] => []
  | x :: t =>
      if existsb (String.eqb x) seen then unique_aux seen t
      else x :: unique_aux (x :: seen) t
  end.

Definition unique (l : list string) : list string := unique_aux [] l.

(** [str.count(pat)] is [len(re.findall(pat, s))].  The pattern is read as
    a regular expression; a subject identifier made of ordinary characters
    (no regex metacharacter, see [plain_id]) is the regular expression that
    matches itself, and this is the case modelled here: the number of
    non-overlapping occurrences of [pat] in [s], found from left to right.
    After a match the scan resumes behind it ([skip] characters are passed
    over); the empty pattern matches once at every position, end included.
    On a pattern with metacharacters the code counts the matches of the
    expression, or raises [re.error] when it is not a valid one: the
    general statements about [observations] assume [plain_ids]. *)
Fixpoint count_from (pat : string) (skip : nat) (s : string) : nat :=
  match skip with
  | S k =>
      match s with
      | EmptyString => 0
      | String _ s' => count_from pat k s'
      end
  | O =>
      if prefix pat s then
        S (match s with
           | EmptyString => 0
           | String _ s' => count_from pat (Nat.pred (String.length pat)) s'
           end)
      else
        match s with
        | EmptyString => 0
        | String _ s' => count_from pat 0 s'
        end
  end.

Definition str_count (pat s : string) : nat := count_from pat 0 s.

(** The characters the [re] module gives a meaning of their own. *)
Definition regex_special (c : ascii) : bool :=
  existsb (Ascii.eqb c)
    ["."; "^"; "$"; "*"; "+"; "?"; "{"; "}"; "["; "]"; "\"; "|"; "("; ")"]%char.

(** An ASCII character that, in a pattern, matches itself and nothing else. *)
Definition plain_char (c : ascii) : bool :=
  negb (regex_special c) && (nat_of_ascii c <? 128)%nat.

Fixpoint plain_id (s : string) : bool :=
  match s with
  | EmptyString => true
  | String c s' => plain_char c && plain_id s'
  end.

(** Every identifier of the frame is plain: [str.count] then counts the
    identifier as such and cannot raise. *)
Definition plain_ids (data : Dataset) : Prop :=
  Forall (fun r => plain_id (participants r) = true) data.

(** *** [observations] *)

(** One count per distinct identifier, each the int64 sum of [str.count]
    over the identifier column.  The function is the code's on frames whose
    identifiers are plain ([plain_ids]): there [str.count] cannot raise and
    counts the identifier as such; the statements that hold for every frame
    carry that hypothesis. *)
Definition observations (data : Dataset) : list Z :=
  let participants_col := map participants data in
  map (fun p =>
         Int64.np_sum (map (fun s => Z.of_nat (str_count p s)) participants_col))
      (unique participants_col).

(** The number of rows whose identifier is exactly [p]. *)
Definition rows_of (p : string) (data : Dataset) : Dataset :=
  filter (fun r => String.eqb (participants r) p) data.

Definition exact_count (p : string) (data : Dataset) : Z :=
  Z.of_nat (List.length (rows_of p data)).

(** *** [RBA_SD] *)

Definition num_observations (obsv : list Z) : npfloat :=
  int_true_divide
    (Int64.sub (Int64.square (Int64.np_sum obsv))
               (Int64.np_sum (map Int64.square obsv)))
    (Int64.mul (Z.of_nat (List.length obsv) - 1) (Int64.np_sum obsv)).

Definition totalVariance (obsv : list Z) (MS_between MS_within : npfloat)
  : npfloat :=
  let diff_accrossSubjects := fsub MS_between MS_within in
  let diff_withinSubject := MS_within in
  let varianceHetro := fdiv diff_accrossSubjects (num_observations obsv) in
  fadd varianceHetro diff_withinSubject.

(** Every step is a numpy operation, so the call always returns. *)
Definition RBA_SD (obsv : list Z) (MS_between MS_within : npfloat)
  : outcome npfloat :=
  let SD := fsqrt (totalVariance obsv MS_between MS_within) in
  Returns SD.

(** *** [RBA_values] *)

Definition Rsum (l : list R) : R := fold_right Rplus 0%R l.

(** [Series.mean]: NaN on an empty series. *)
Definition series_mean (l : list R) : npfloat :=
  match l with
  | [] => NaN
  | _ => Fin (Rsum l / INR (List.length l))
  end.

Definition z_95 : R := 196 / 100.

Definition RBA_values (data : Dataset) (SD : npfloat)
  : npfloat * npfloat * npfloat :=
  let bias := series_mean (map variables data) in
  let LOA_L := fsub bias (fmul SD (Fin z_95)) in
  let LOA_U := fadd bias (fmul SD (Fin z_95)) in
  (bias, LOA_L, LOA_U).

(** *** [commonSenseTesting] *)

Definition within (LOA_L LOA_U : npfloat) (r : row) : bool :=
  fgt (Fin (variables r)) LOA_L && flt (Fin (variables r)) LOA_U.

(** The built-in [sum] over the boolean series is a Python integer, and so
    is [len]: their quotient is Python's division, which raises on a zero
    divisor. *)
Definition commonSenseTesting (data : Dataset) (LOA_L LOA_U : npfloat)
  : outcome npfloat :=
  let commonSense := map (within LOA_L LOA_U) data in
  let length := Z.of_nat (List.length data) in
  Py.int_div (Z.of_nat (List.length (filter (fun b => b) commonSense))) length.

(** *** [ANOVA_MS] *)

(** The two rows and two columns of the table of [anova_lm] that the
    script reads. *)
Record anova_row : Type := AnovaRow { sum_sq : npfloat; df : npfloat }.

Record anova_table : Type :=
  AnovaTable { tab_participants : anova_row; tab_Residual : anova_row }.

Section Anova.

(** [sm.stats.anova_lm(ols('variables ~ participants', data).fit(), typ=2)]:
    the fit and the table come from statsmodels, which the script imports;
    the function is a parameter of the model. *)
Variable anova_lm_typ2 : Dataset -> anova_table.

Definition ANOVA_MS (data : Dataset) : npfloat * npfloat :=
  let anova_result := anova_lm_typ2 data in
  let MS_between :=
    fdiv (sum_sq (tab_participants anova_result))
         (df (tab_participants anova_result)) in
  let MS_within :=
    fdiv (sum_sq (tab_Residual anova_result))
         (df (tab_Residual anova_result)) in
  (MS_between, MS_within).

(** *** [main] *)

(** The two loading lines of [main]: [pd.read_csv] of the example file and
    the [drop] of its index column.  They give the frame, or the exception
    one of them raises; the file is outside the program and its content is
    a parameter of the model. *)
Variable read_example : outcome Dataset.

(** [main] takes any arguments and never looks at them: its test for a
    local variable named data is false whatever it is called with, so the
    frame is always the one of the example file. *)
Definition main (A : Type) (args : list A)
  : outcome (Dataset * list Z * npfloat * npfloat * npfloat * npfloat
             * npfloat) :=
  Py.bind read_example (fun data =>
  let obsv := observations data in
  let '(MS_between, MS_within) := ANOVA_MS data in
  Py.bind (RBA_SD obsv MS_between MS_within) (fun SD =>
  let '(bias, LOA_L, LOA_U) := RBA_values data SD in
  Py.bind (commonSenseTesting data LOA_L LOA_U) (fun commonSense =>
  Returns (data, obsv, bias, SD, LOA_L, LOA_U, commonSense)))).

End Anova.

(** ** Reference quantities *)

(** *** One-way analysis of variance *)

Definition levels (data : Dataset) : list string :=
  unique (map participants data).

(** The values of subject [p], in row order. *)
Definition group (p : string) (data : Dataset) : list R :=
  map variables (rows_of p data).

Definition mean (l : list R) : R := (Rsum l / INR (List.length l))%R.

Definition grand_mean (data : Dataset) : R := mean (map variables data).

(** Residual sum of squares of a model that predicts [fit p] for every row
    of subject [p]. *)
Definition rss (fit : string -> R) (data : Dataset) : R :=
  Rsum (map (fun r => Rsqr (variables r - fit (participants r))) data).

(** Least squares with one indicator per subject fits each subject by the
    mean of its values ([group_mean_least_squares] below); the model with
    the intercept alone fits the grand mean. *)
Definition ols_fit (data : Dataset) (p : string) : R := mean (group p data).

Definition rss_full (data : Dataset) : R := rss (ols_fit data) data.

Definition rss_intercept (data : Dataset) : R :=
  rss (fun _ => grand_mean data) data.

(** The type II table of a model with the single term [participants]: the
    sum of squares of the term is the reduction of the residual sum of
    squares that the term brings to the intercept-only model, with one
    degree of freedom per indicator column; the residual row holds the
    residual sum of squares and the rows left after the [k] columns. *)
Definition typ2_table (data : Dataset) : anova_table :=
  let k := Z.of_nat (List.length (levels data)) in
  let N := Z.of_nat (List.length data) in
  {| tab_participants :=
       {| sum_sq := Fin (rss_intercept data - rss_full data);
          df := of_int (k - 1) |};
     tab_Residual :=
       {| sum_sq := Fin (rss_full data); df := of_int (N - k) |} |}.

(** What is assumed of the library: on a design with at least two subjects
    and more rows than subjects it returns the type II table. *)
Definition anova_contract (lib : Dataset -> anova_table) : Prop :=
  forall data,
    (2 <= List.length (levels data))%nat ->
    (List.length (levels data) < List.length data)%nat ->
    lib data = typ2_table data.

(** The textbook sums of squares, subject by subject. *)
Definition SS_between (data : Dataset) : R :=
  Rsum (map (fun p =>
               INR (List.length (group p data))
               * Rsqr (mean (group p data) - grand_mean data))%R
            (levels data)).

Definition SS_within (data : Dataset) : R :=
  Rsum (map (fun p =>
               Rsum (map (fun x => Rsqr (x - mean (group p data))) (group p data)))
            (levels data)).

(** *** Counts *)

Definition Zsum (l : list Z) : Z := fold_right Z.add 0%Z l.

(** The adjustment term of the variance formula, over the reals. *)
Definition harmonic_adjustment (obsv : list Z) : R :=
  (IZR (Zsum obsv * Zsum obsv - Zsum (map (fun n => n * n)%Z obsv))
   / IZR ((Z.of_nat (List.length obsv) - 1) * Zsum obsv))%R.

(** No intermediate result of [num_observations] leaves the int64 range. *)
Definition fits_int64 (obsv : list Z) : Prop :=
  Forall (fun n => 0 <= n)%Z obsv
  /\ (Zsum obsv * Zsum obsv <= Int64.max_signed)%Z
  /\ ((Z.of_nat (List.length obsv) - 1) * Zsum obsv <= Int64.max_signed)%Z.

(** The occurrences of [p] in the identifier column, as an exact integer. *)
Definition occurrences (p : string) (data : Dataset) : Z :=
  Zsum (map (fun s => Z.of_nat (str_count p s)) (map participants data)).

(** The rows whose value lies strictly between two finite limits. *)
Definition strictly_inside (lo hi : R) (data : Dataset) : Dataset :=
  filter (fun r => Rltb lo (variables r) && Rltb (variables r) hi) data.

(** *** Inputs used as examples *)

(** Two subjects whose identifiers share a prefix. *)
Definition prefix_data : Dataset := [Row "P1" 1; Row "P10" 2].

(** Two subjects of 2^32 rows each: the squares leave the int64 range. *)
Definition overflow_counts : list Z := [4294967296%Z; 4294967296%Z].


Definition anova_example : Dataset := [Row "a" 1; Row "a" 3; Row "b" 5].

(** ** Tactics *)

(** Unfolds the int64 bounds to numerals. *)
Ltac int64_consts :=
  unfold Int64.in_range, Int64.max_signed, Int64.min_signed,
    Int64.modulus, Int64.half_modulus in *;
  change (2 ^ 63)%Z with 9223372036854775808%Z in *;
  change (2 ^ 64)%Z with 18446744073709551616%Z in *.


(** ** Finite cases of the float operations *)

Section FiniteFloats.

Local Open Scope R_scope.


Lemma Rltb_false (a b : R) : b <= a -> Rltb a b = false.
Proof. intros H. unfold Rltb. destruct (Rlt_dec a b); [lra | reflexivity]. Qed.

Lemma Rltb_irrefl (a : R) : Rltb a a = false.
Proof. apply Rltb_false. lra. Qed.

Lemma classify_zero : classify (Fin 0) = VZero false.
Proof. unfold classify, Reqb. destruct (Req_dec_T 0 0); [reflexivity | lra]. Qed.

Lemma classify_nonzero (r : R) : r <> 0 -> classify (Fin r) = VNum r.
Proof.
  intros H. unfold classify, Reqb.
  destruct (Req_dec_T r 0); [contradiction | reflexivity].
Qed.

(** Case analysis on a finite float: it is the positive zero or a number. *)
Ltac finite_cases r :=
  let E := fresh "E" in
  destruct (Req_dec_T r 0) as [E | E];
  [ subst r; rewrite ?classify_zero | rewrite ?(@classify_nonzero _ E) ].

Lemma fadd_finite (a b : R) : fadd (Fin a) (Fin b) = Fin (a + b).
Proof.
  unfold fadd. finite_cases a; finite_cases b; simpl; f_equal; lra.
Qed.

Lemma fneg_finite (b : R) :
  fneg (Fin b) = if Reqb b 0 then NegZero else Fin (- b).
Proof.
  unfold fneg, Reqb. finite_cases b.
  - destruct (Req_dec_T 0 0); [reflexivity | lra].
  - destruct (Req_dec_T b 0); [contradiction | reflexivity].
Qed.

Lemma fadd_negzero (a : R) : fadd (Fin a) NegZero = Fin a.
Proof. unfold fadd. finite_cases a; reflexivity. Qed.

Lemma fsub_finite (a b : R) : fsub (Fin a) (Fin b) = Fin (a - b).
Proof.
  unfold fsub. rewrite fneg_finite. unfold Reqb.
  destruct (Req_dec_T b 0) as [E | E].
  - subst b. rewrite fadd_negzero. f_equal. lra.
  - rewrite fadd_finite. reflexivity.
Qed.

Lemma fmul_finite_pos (a b : R) : 0 < b -> fmul (Fin a) (Fin b) = Fin (a * b).
Proof.
  intros Hb. unfold fmul. rewrite (@classify_nonzero b) by lra.
  finite_cases a.
  - unfold negative. rewrite Rltb_false by lra. simpl. f_equal. lra.
  - reflexivity.
Qed.

Lemma fdiv_finite_pos (a b : R) : 0 < b -> fdiv (Fin a) (Fin b) = Fin (a / b).
Proof.
  intros Hb. unfold fdiv. rewrite (@classify_nonzero b) by lra.
  finite_cases a.
  - unfold negative. rewrite Rltb_false by lra. simpl. f_equal.
    unfold Rdiv. lra.
  - reflexivity.
Qed.

Lemma fsqrt_finite (r : R) : 0 <= r -> fsqrt (Fin r) = Fin (sqrt r).
Proof.
  intros Hr. unfold fsqrt. finite_cases r.
  - simpl. now rewrite sqrt_0.
  - unfold negative. now rewrite Rltb_false by lra.
Qed.


Lemma flt_finite (a b : R) : flt (Fin a) (Fin b) = Rltb a b.
Proof.
  unfold flt. finite_cases a; finite_cases b; rewrite ?Rltb_irrefl; reflexivity.
Qed.

Lemma int_true_divide_pos (a b : Z) :
  (0 < b)%Z -> int_true_divide a b = Fin (IZR a / IZR b).
Proof.
  intros Hb. unfold int_true_divide, of_int. apply fdiv_finite_pos.
  now apply IZR_lt.
Qed.

Lemma int_true_divide_zero_zero : int_true_divide 0 0 = NaN.
Proof. unfold int_true_divide, of_int, fdiv. now rewrite classify_zero. Qed.

(** NaN is absorbing. *)
Lemma fdiv_nan_r (x : npfloat) : fdiv x NaN = NaN.
Proof. unfold fdiv. destruct (classify x); reflexivity. Qed.

End FiniteFloats.

(** ** int64: when the wrap-around is the identity *)

Section Int64Facts.

Local Open Scope Z_scope.

Lemma wrap64_small (z : Z) : Int64.in_range z -> Int64.wrap64 z = z.
Proof.
  unfold Int64.wrap64. int64_consts. intros H.
  rewrite Z.mod_small; lia.
Qed.

Lemma wrap64_in_range (z : Z) : Int64.in_range (Int64.wrap64 z).
Proof.
  unfold Int64.wrap64. int64_consts.
  pose proof (Z.mod_pos_bound (z + 9223372036854775808) 18446744073709551616).
  lia.
Qed.

Lemma wrap64_congr (a b : Z) :
  a mod Int64.modulus = b mod Int64.modulus -> Int64.wrap64 a = Int64.wrap64 b.
Proof.
  intros H. unfold Int64.wrap64. f_equal.
  rewrite (Z.add_mod a), (Z.add_mod b), H by (int64_consts; lia).
  reflexivity.
Qed.

Lemma wrap64_mod (z : Z) : Int64.wrap64 z mod Int64.modulus = z mod Int64.modulus.
Proof.
  unfold Int64.wrap64. rewrite Zminus_mod_idemp_l. f_equal. lia.
Qed.

Lemma Zsum_nonneg (l : list Z) : Forall (fun n => 0 <= n) l -> 0 <= Zsum l.
Proof. induction 1; simpl; lia. Qed.

Lemma Zsum_squares_le (l : list Z) :
  Forall (fun n => 0 <= n) l ->
  0 <= Zsum (map (fun n => n * n) l) <= Zsum l * Zsum l.
Proof.
  induction 1 as [| x l Hx Hl IH]; simpl; [lia |].
  pose proof (Zsum_nonneg Hl). nia.
Qed.

Lemma fold_add_exact (l : list Z) : forall acc,
  Forall (fun n => 0 <= n) l -> 0 <= acc ->
  acc + Zsum l <= Int64.max_signed ->
  fold_left Int64.add l acc = acc + Zsum l.
Proof.
  induction l as [| x l IH]; intros acc Hl Hacc Hmax; simpl in *; [lia |].
  inversion Hl as [| ? ? Hx Hl']; subst.
  pose proof (Zsum_nonneg Hl').
  unfold Int64.add at 2. rewrite wrap64_small by (int64_consts; lia).
  rewrite IH; trivial; lia.
Qed.

Lemma np_sum_exact (l : list Z) :
  Forall (fun n => 0 <= n) l -> Zsum l <= Int64.max_signed ->
  Int64.np_sum l = Zsum l.
Proof.
  intros Hl Hmax. unfold Int64.np_sum. rewrite fold_add_exact; trivial; lia.
Qed.

Lemma map_square_exact (l : list Z) :
  Forall (fun n => 0 <= n) l -> Zsum l * Zsum l <= Int64.max_signed ->
  map Int64.square l = map (fun n => n * n) l.
Proof.
  induction 1 as [| x l Hx Hl IH]; intros Hmax; simpl in *; [reflexivity |].
  pose proof (Zsum_nonneg Hl).
  f_equal.
  - unfold Int64.square, Int64.mul. apply wrap64_small. int64_consts. nia.
  - apply IH. nia.
Qed.

(** Under [fits_int64] the quotient is taken of the exact integers. *)
Lemma num_observations_exact (obsv : list Z) :
  fits_int64 obsv ->
  num_observations obsv =
  int_true_divide
    (Zsum obsv * Zsum obsv - Zsum (map (fun n => n * n) obsv))
    ((Z.of_nat (List.length obsv) - 1) * Zsum obsv).
Proof.
  intros (Hpos & Hsq & Hden).
  pose proof (Zsum_nonneg Hpos) as HS.
  pose proof (Zsum_squares_le Hpos) as HQ.
  assert (HSmax : Zsum obsv <= Int64.max_signed) by (int64_consts; nia).
  unfold num_observations.
  rewrite (np_sum_exact Hpos HSmax), (map_square_exact Hpos Hsq).
  rewrite np_sum_exact.
  - unfold Int64.square, Int64.mul, Int64.sub.
    rewrite (wrap64_small (z := Zsum obsv * Zsum obsv)) by (int64_consts; nia).
    rewrite wrap64_small by (int64_consts; nia).
    rewrite wrap64_small by (int64_consts; nia).
    reflexivity.
  - clear -Hpos. induction Hpos; constructor; trivial; nia.
  - lia.
Qed.

Lemma Zsum_repeat (n : Z) (k : nat) : Zsum (repeat n k) = Z.of_nat k * n.
Proof. induction k; simpl repeat; simpl Zsum; [lia | rewrite IHk; lia]. Qed.

End Int64Facts.

(** ** The adjustment term and the total variance *)

Section Variance.

Local Open Scope R_scope.

Lemma harmonic_adjustment_nonneg (obsv : list Z) :
  Forall (fun n => 0 <= n)%Z obsv -> (2 <= List.length obsv)%nat ->
  (0 < Zsum obsv)%Z -> 0 <= harmonic_adjustment obsv.
Proof.
  intros Hpos Hk HS. unfold harmonic_adjustment.
  pose proof (Zsum_squares_le Hpos) as HQ.
  apply Rmult_le_pos.
  - apply IZR_le. lia.
  - left. apply Rinv_0_lt_compat. apply IZR_lt. nia.
Qed.

Lemma num_observations_finite (obsv : list Z) :
  fits_int64 obsv -> (2 <= List.length obsv)%nat -> (0 < Zsum obsv)%Z ->
  num_observations obsv = Fin (harmonic_adjustment obsv).
Proof.
  intros Hfit Hk HS. rewrite (num_observations_exact Hfit).
  apply int_true_divide_pos. nia.
Qed.

Lemma totalVariance_finite (obsv : list Z) (MS_between MS_within : R) :
  fits_int64 obsv -> (2 <= List.length obsv)%nat -> (0 < Zsum obsv)%Z ->
  harmonic_adjustment obsv <> 0 ->
  totalVariance obsv (Fin MS_between) (Fin MS_within) =
  Fin ((MS_between - MS_within) / harmonic_adjustment obsv + MS_within).
Proof.
  intros Hfit Hk HS Hh. unfold totalVariance.
  rewrite (num_observations_finite Hfit Hk HS), fsub_finite.
  destruct Hfit as (Hpos & _).
  pose proof (harmonic_adjustment_nonneg Hpos Hk HS).
  rewrite fdiv_finite_pos by lra.
  apply fadd_finite.
Qed.

Lemma totalVariance_nan_adjustment (obsv : list Z) (MS_between MS_within : npfloat) :
  num_observations obsv = NaN ->
  totalVariance obsv MS_between MS_within = NaN.
Proof.
  intros H. unfold totalVariance. rewrite H, fdiv_nan_r. reflexivity.
Qed.

(** A single count: numerator and denominator both vanish, whatever the
    count, wrapped or not. *)
Lemma num_observations_single (n : Z) : num_observations [n] = NaN.
Proof.
  unfold num_observations.
  assert (Hden : Int64.mul (Z.of_nat (List.length [n]) - 1) (Int64.np_sum [n])
                 = 0%Z) by reflexivity.
  assert (Hnum : Int64.sub (Int64.square (Int64.np_sum [n]))
                           (Int64.np_sum (map Int64.square [n])) = 0%Z).
  { unfold Int64.np_sum, Int64.sub, Int64.square, Int64.mul, Int64.add.
    simpl fold_left. simpl Z.add.
    replace (Int64.wrap64 (Int64.wrap64 (n * n)))
      with (Int64.wrap64 (Int64.wrap64 n * Int64.wrap64 n)).
    - now rewrite Z.sub_diag.
    - apply wrap64_congr. rewrite wrap64_mod.
      rewrite Z.mul_mod, !wrap64_mod, <- Z.mul_mod; trivial.
      all: discriminate. }
  rewrite Hden, Hnum. apply int_true_divide_zero_zero.
Qed.

Lemma num_observations_no_rows (obsv : list Z) :
  Forall (fun n => 0 <= n)%Z obsv -> Zsum obsv = 0%Z ->
  num_observations obsv = NaN.
Proof.
  intros Hpos HS.
  assert (Hfit : fits_int64 obsv).
  { repeat split; trivial; rewrite HS; rewrite ?Z.mul_0_r; discriminate. }
  rewrite (num_observations_exact Hfit), HS.
  pose proof (Zsum_squares_le Hpos) as HQ. rewrite HS in HQ.
  replace (Zsum (map (fun n => (n * n)%Z) obsv)) with 0%Z by lia.
  rewrite Z.mul_0_r, Z.mul_0_r. apply int_true_divide_zero_zero.
Qed.

End Variance.

(** ** Counts of at least one row per subject *)

Section PositiveCounts.

Local Open Scope Z_scope.

Lemma Zsum_ge_length (l : list Z) :
  Forall (fun n => 1 <= n) l -> Z.of_nat (List.length l) <= Zsum l.
Proof. induction 1; simpl Zsum; simpl List.length; lia. Qed.

(** With at least one row per subject the numerator of the adjustment term
    is at least its denominator. *)
Lemma adjustment_numerator_ge (l : list Z) :
  Forall (fun n => 1 <= n) l ->
  (Z.of_nat (List.length l) - 1) * Zsum l
  <= Zsum l * Zsum l - Zsum (map (fun n => n * n) l).
Proof.
  induction 1 as [| x l Hx Hl IH].
  - simpl. lia.
  - pose proof (Zsum_ge_length Hl) as HT.
    change (List.length (x :: l)) with (S (List.length l)).
    simpl Zsum. simpl map. simpl Zsum. nia.
Qed.

Lemma Forall_ge1_nonneg (l : list Z) :
  Forall (fun n => 1 <= n) l -> Forall (fun n => 0 <= n) l.
Proof. apply Forall_impl. intros; lia. Qed.

Local Open Scope R_scope.

Lemma harmonic_adjustment_ge_1 (obsv : list Z) :
  Forall (fun n => 1 <= n)%Z obsv -> (2 <= List.length obsv)%nat ->
  1 <= harmonic_adjustment obsv.
Proof.
  intros Hpos Hk. unfold harmonic_adjustment.
  pose proof (Zsum_ge_length Hpos) as HS.
  pose proof (adjustment_numerator_ge Hpos) as Hnum.
  assert (Hden : (0 < (Z.of_nat (List.length obsv) - 1) * Zsum obsv)%Z) by nia.
  apply IZR_lt in Hden. apply IZR_le in Hnum.
  apply Rmult_le_reg_r with (IZR ((Z.of_nat (List.length obsv) - 1) * Zsum obsv));
    [exact Hden |].
  unfold Rdiv. rewrite Rmult_assoc, Rinv_l by lra. lra.
Qed.

(** Non-negative mean squares and an adjustment term of at least 1 give a
    non-negative total variance. *)
Lemma total_variance_nonneg (b w h : R) :
  0 <= b -> 0 <= w -> 1 <= h -> 0 <= (b - w) / h + w.
Proof.
  intros Hb Hw Hh.
  assert (Hinv : 0 < / h <= 1).
  { split; [apply Rinv_0_lt_compat; lra |].
    rewrite <- Rinv_1. apply Rinv_le_contravar; lra. }
  unfold Rdiv. nra.
Qed.

End PositiveCounts.

(** ** Subjects and their groups *)

Section Groups.

Lemma existsb_eqb_In (x : string) (seen : list string) :
  existsb (String.eqb x) seen = true <-> In x seen.
Proof.
  rewrite existsb_exists. split.
  - intros (y & Hy & E). apply String.eqb_eq in E. now subst.
  - intros H. exists x. split; [exact H | apply String.eqb_refl].
Qed.

Lemma unique_aux_In (l : list string) : forall seen x,
  In x (unique_aux seen l) <-> In x l /\ ~ In x seen.
Proof.
  induction l as [| y l IH]; intros seen x; simpl; [tauto |].
  destruct (existsb (String.eqb y) seen) eqn:E.
  - apply existsb_eqb_In in E. rewrite IH. split.
    + tauto.
    + intros [[-> | H] Hn]; [contradiction | tauto].
  - assert (Hy : ~ In y seen).
    { intros H. apply existsb_eqb_In in H. congruence. }
    simpl. rewrite IH. simpl. split.
    + intros [-> | (H & Hn)]; [tauto |]. split; [tauto |]. tauto.
    + intros ([-> | H] & Hn); [tauto |].
      destruct (String.string_dec y x) as [-> | Hne]; [tauto |]. right. tauto.
Qed.

Lemma unique_aux_NoDup (l : list string) : forall seen,
  NoDup (unique_aux seen l).
Proof.
  induction l as [| y l IH]; intros seen; simpl; [constructor |].
  destruct (existsb (String.eqb y) seen); [apply IH |].
  constructor; [| apply IH].
  rewrite unique_aux_In. simpl. tauto.
Qed.

Lemma unique_In (l : list string) (x : string) : In x (unique l) <-> In x l.
Proof. unfold unique. rewrite unique_aux_In. simpl. tauto. Qed.

Lemma unique_NoDup (l : list string) : NoDup (unique l).
Proof. apply unique_aux_NoDup. Qed.

Lemma levels_cover (data : Dataset) (r : row) :
  In r data -> In (participants r) (levels data).
Proof. intros H. apply unique_In. now apply in_map. Qed.

Lemma rows_of_cons (p : string) (r : row) (data : Dataset) :
  rows_of p (r :: data) =
  if String.eqb (participants r) p then r :: rows_of p data else rows_of p data.
Proof. reflexivity. Qed.

Lemma rows_of_participants (p : string) (data : Dataset) (r : row) :
  In r (rows_of p data) -> participants r = p.
Proof.
  unfold rows_of. rewrite filter_In. intros [_ E]. now apply String.eqb_eq.
Qed.

Local Open Scope R_scope.

Lemma Rsum_map_plus (A : Type) (f g : A -> R) (l : list A) :
  Rsum (map (fun x => f x + g x) l) = Rsum (map f l) + Rsum (map g l).
Proof. induction l as [| x l IH]; simpl; [lra | rewrite IH; lra]. Qed.

Lemma Rsum_map_le (A : Type) (f g : A -> R) (l : list A) :
  (forall x, In x l -> f x <= g x) -> Rsum (map f l) <= Rsum (map g l).
Proof.
  induction l as [| x l IH]; intros H; simpl; [lra |].
  assert (f x <= g x) by (apply H; now left).
  assert (Rsum (map f l) <= Rsum (map g l)) by (apply IH; intros; apply H; now right).
  lra.
Qed.

Lemma Rsum_indicator_absent (q : string) (c : R) (ps : list string) :
  ~ In q ps -> Rsum (map (fun p => if String.eqb q p then c else 0) ps) = 0.
Proof.
  induction ps as [| p ps IH]; intros Hn; simpl; [reflexivity |].
  destruct (String.eqb_spec q p) as [-> | Hne].
  - exfalso. apply Hn. now left.
  - rewrite IH; [lra |]. intros H. apply Hn. now right.
Qed.

Lemma Rsum_indicator (q : string) (c : R) (ps : list string) :
  NoDup ps -> In q ps ->
  Rsum (map (fun p => if String.eqb q p then c else 0) ps) = c.
Proof.
  induction 1 as [| p ps Hp Hnd IH]; intros Hq; simpl; [contradiction |].
  destruct (String.eqb_spec q p) as [-> | Hne].
  - rewrite Rsum_indicator_absent by exact Hp. lra.
  - destruct Hq as [-> | Hq]; [congruence |]. rewrite IH by exact Hq. lra.
Qed.

(** Summing subject by subject is summing over all rows. *)
Lemma Rsum_by_subject (f : row -> R) (ps : list string) (data : Dataset) :
  NoDup ps -> (forall r, In r data -> In (participants r) ps) ->
  Rsum (map (fun p => Rsum (map f (rows_of p data))) ps) = Rsum (map f data).
Proof.
  intros Hnd. induction data as [| r data IH]; intros Hcover.
  - clear Hnd Hcover.
    induction ps as [| p ps IHp]; simpl in *; [reflexivity | rewrite IHp; lra].
  - change (Rsum (map f (r :: data))) with (f r + Rsum (map f data)).
    rewrite <- IH by (intros; apply Hcover; now right).
    rewrite <- (@Rsum_indicator (participants r) (f r) ps Hnd)
      by (apply Hcover; now left).
    rewrite <- Rsum_map_plus. f_equal. apply map_ext. intros p.
    rewrite rows_of_cons. destruct (String.eqb (participants r) p); simpl; lra.
Qed.

End Groups.

(** ** One-way analysis of variance *)

Section AnovaFacts.

Local Open Scope R_scope.

(** Squared deviations from [c], recentred at an arbitrary [m]. *)
Lemma squares_recentred (g : list R) (m c : R) :
  Rsum (map (fun x => Rsqr (x - c)) g) =
  Rsum (map (fun x => Rsqr (x - m)) g)
  + 2 * (m - c) * (Rsum g - INR (List.length g) * m)
  + INR (List.length g) * Rsqr (m - c).
Proof.
  induction g as [| x g IH].
  - simpl. unfold Rsqr. ring.
  - change (List.length (x :: g)) with (S (List.length g)).
    rewrite S_INR. simpl map. simpl Rsum. rewrite IH. unfold Rsqr. ring.
Qed.

Lemma mean_balances (g : list R) : Rsum g - INR (List.length g) * mean g = 0.
Proof.
  unfold mean. destruct g as [| x g].
  - simpl. ring.
  - assert (H : INR (List.length (x :: g)) <> 0).
    { apply not_0_INR. discriminate. }
    field. exact H.
Qed.

(** The decomposition of a group's squared deviations around its mean. *)
Lemma squares_around_mean (g : list R) (c : R) :
  Rsum (map (fun x => Rsqr (x - c)) g) =
  Rsum (map (fun x => Rsqr (x - mean g)) g)
  + INR (List.length g) * Rsqr (mean g - c).
Proof.
  rewrite (squares_recentred g (mean g) c), mean_balances. ring.
Qed.

Lemma rss_by_subject (fit : string -> R) (data : Dataset) :
  rss fit data =
  Rsum (map (fun p => Rsum (map (fun x => Rsqr (x - fit p)) (group p data)))
            (levels data)).
Proof.
  unfold rss.
  rewrite <- (@Rsum_by_subject _ (levels data) data (unique_NoDup _)
                (@levels_cover data)).
  f_equal. apply map_ext. intros p. unfold group. rewrite map_map.
  f_equal. apply map_ext_in. intros r Hr.
  now rewrite (rows_of_participants _ _ _ Hr).
Qed.

Lemma rss_full_within (data : Dataset) : rss_full data = SS_within data.
Proof. unfold rss_full. now rewrite rss_by_subject. Qed.

Lemma rss_intercept_total (data : Dataset) :
  rss_intercept data = SS_within data + SS_between data.
Proof.
  unfold rss_intercept, SS_within, SS_between.
  rewrite rss_by_subject, <- Rsum_map_plus.
  f_equal. apply map_ext. intros p. apply squares_around_mean.
Qed.

(** The subject means are the least-squares fit: no other choice of one
    fitted value per subject leaves a smaller residual sum of squares. *)
Lemma group_mean_least_squares (data : Dataset) (fit : string -> R) :
  rss (ols_fit data) data <= rss fit data.
Proof.
  rewrite !rss_by_subject. apply Rsum_map_le. intros p _.
  rewrite (squares_around_mean (group p data) (fit p)). unfold ols_fit.
  pose proof (pos_INR (List.length (group p data))).
  pose proof (Rle_0_sqr (mean (group p data) - fit p)).
  nra.
Qed.

(** The grand mean is the least-squares fit of the intercept-only model. *)
Lemma grand_mean_least_squares (data : Dataset) (c : R) :
  rss_intercept data <= rss (fun _ => c) data.
Proof.
  unfold rss_intercept, rss, grand_mean.
  rewrite <- !(map_map variables (fun x => Rsqr (x - _))).
  rewrite (squares_around_mean (map variables data) c).
  pose proof (pos_INR (List.length (map variables data))).
  pose proof (Rle_0_sqr (mean (map variables data) - c)).
  nra.
Qed.

(** Claim C3.  For a dataset with k >= 2 distinct subjects and N > k rows,
    [ANOVA_MS] returns the pair (MS_between, MS_within) with
    MS_between = (sum over subjects of n_i * (mean_i - grand mean)^2) / (k - 1)
    and MS_within = (sum over subjects of the squared deviations of the
    subject's values from mean_i) / (N - k).  The table itself is produced
    by the library; it is taken to be the type II table ([anova_contract]),
    and the theorem derives the textbook sums of squares from the residual
    sums of squares of the two fitted models. *)
Theorem ANOVA_MS_mean_squares (lib : Dataset -> anova_table) (data : Dataset) :
  anova_contract lib ->
  (2 <= List.length (levels data))%nat ->
  (List.length (levels data) < List.length data)%nat ->
  ANOVA_MS lib data =
  (Fin (SS_between data / (INR (List.length (levels data)) - 1)),
   Fin (SS_within data
        / (INR (List.length data) - INR (List.length (levels data))))).
Proof.
  intros Hlib Hk HN. unfold ANOVA_MS. rewrite (Hlib data Hk HN).
  unfold typ2_table, of_int. simpl.
  rewrite !minus_IZR, <- !INR_IZR_INZ.
  apply lt_INR in HN. apply le_INR in Hk. simpl INR in Hk.
  rewrite !fdiv_finite_pos by lra.
  rewrite rss_intercept_total, rss_full_within.
  apply f_equal2; apply f_equal; f_equal; ring.
Qed.

(** The type II table itself meets the contract; two subjects, three rows. *)
Lemma ANOVA_MS_mean_squares_witness :
  ANOVA_MS typ2_table anova_example =
  (Fin (SS_between anova_example / (INR (List.length (levels anova_example)) - 1)),
   Fin (SS_within anova_example
        / (INR (List.length anova_example)
           - INR (List.length (levels anova_example))))).
Proof.
  apply ANOVA_MS_mean_squares.
  - intros data _ _. reflexivity.
  - simpl. lia.
  - simpl. lia.
Defined.

End AnovaFacts.

(** ** [RBA_SD]: the variance formula and the balanced design *)

Section VarianceClaims.

Local Open Scope R_scope.



Lemma num_observations_overflow : num_observations overflow_counts = Fin 0.
Proof.
  assert (H : num_observations overflow_counts
              = int_true_divide 0 8589934592).
  { unfold num_observations. f_equal; vm_compute; reflexivity. }
  rewrite H, int_true_divide_pos by reflexivity.
  f_equal. lra.
Qed.





(** Claim C7, amended.  For a balanced design of k >= 2 subjects with the
    same count n >= 1 each, and (k * n)^2 at most 2^53, the adjustment term
    computed inside [RBA_SD] is exactly n.  Below that bound nothing wraps
    around in int64, and numerator and denominator, both at most
    (k * n)^2, are converted to float64 without rounding; their quotient n
    is a float. *)
Theorem balanced_adjustment (n : Z) (k : nat) :
  (2 <= k)%nat -> (1 <= n)%Z ->
  ((Z.of_nat k * n) * (Z.of_nat k * n) <= 2 ^ 53)%Z ->
  num_observations (repeat n k) = Fin (IZR n).
Proof.
  intros Hk Hn H53.
  assert (Hmax : ((Z.of_nat k * n) * (Z.of_nat k * n) <= Int64.max_signed)%Z).
  { unfold Int64.max_signed.
    change (2 ^ 53)%Z with 9007199254740992%Z in H53.
    change (2 ^ 63)%Z with 9223372036854775808%Z. lia. }
  assert (Hfit : fits_int64 (repeat n k)).
  { unfold fits_int64. rewrite Zsum_repeat, repeat_length.
    repeat split; trivial.
    - apply Forall_forall. intros x Hx. apply repeat_spec in Hx. lia.
    - nia. }
  rewrite (num_observations_exact Hfit).
  rewrite map_repeat, !Zsum_repeat, repeat_length.
  rewrite int_true_divide_pos by nia.
  f_equal.
  replace (Z.of_nat k * n * (Z.of_nat k * n) - Z.of_nat k * (n * n))%Z
    with (n * ((Z.of_nat k - 1) * (Z.of_nat k * n)))%Z by ring.
  rewrite mult_IZR. field.
  apply not_0_IZR. nia.
Qed.

(** Three subjects of seven rows. *)
Lemma balanced_adjustment_witness : num_observations (repeat 7%Z 3) = Fin 7.
Proof.
  apply (@balanced_adjustment 7%Z 3%nat); [lia | lia | discriminate].
Defined.

(** Claim C7 as stated fails for two subjects of 2^32 rows each: the
    square of the total exceeds int64, and the term computed is 0.0. *)
Lemma balanced_adjustment_fails_on_overflow :
  (Int64.max_signed < (2 * 4294967296) * (2 * 4294967296))%Z /\
  num_observations (repeat 4294967296%Z 2) = Fin 0 /\
  num_observations (repeat 4294967296%Z 2) <> Fin (IZR 4294967296).
Proof.
  assert (E : num_observations (repeat 4294967296%Z 2) = Fin 0)
    by exact num_observations_overflow.
  split; [reflexivity | split; [exact E |]].
  rewrite E. intros H. injection H. lra.
Qed.

End VarianceClaims.

(** ** [RBA_SD]: degenerate counts and negative variance *)

Section ErrorClaims.

Local Open Scope R_scope.

(** Claim C8, amended.  With a single subject, or with non-negative counts
    whose total is zero, [RBA_SD] raises nothing: the adjustment term is
    0/0, and the call returns NaN, whatever the mean squares. *)
Theorem RBA_SD_degenerate_counts (obsv : list Z) (MS_between MS_within : npfloat) :
  List.length obsv = 1%nat
  \/ (Forall (fun n => 0 <= n)%Z obsv /\ Zsum obsv = 0%Z) ->
  RBA_SD obsv MS_between MS_within = Returns NaN.
Proof.
  intros Hdeg. unfold RBA_SD.
  rewrite totalVariance_nan_adjustment; [reflexivity |].
  destruct Hdeg as [Hone | [Hpos Hzero]].
  - destruct obsv as [| n [| m obsv]]; try discriminate.
    apply num_observations_single.
  - now apply num_observations_no_rows.
Qed.

(** One subject of five rows. *)
Lemma RBA_SD_degenerate_counts_witness :
  RBA_SD [5%Z] (Fin 1) (Fin 0) = Returns NaN.
Proof.
  apply RBA_SD_degenerate_counts. left. reflexivity.
Defined.

(** Claim C8 as stated fails: with one subject, and with two subjects
    without rows, the call returns NaN and does not raise. *)
Lemma RBA_SD_single_subject_returns :
  RBA_SD [5%Z] (Fin 1) (Fin 0) = Returns NaN
  /\ RBA_SD [5%Z] (Fin 1) (Fin 0) <> Raises ZeroDivisionError
  /\ RBA_SD [0%Z; 0%Z] (Fin 1) (Fin 0) = Returns NaN
  /\ RBA_SD [0%Z; 0%Z] (Fin 1) (Fin 0) <> Raises ZeroDivisionError.
Proof.
  assert (E1 : RBA_SD [5%Z] (Fin 1) (Fin 0) = Returns NaN).
  { unfold RBA_SD.
    now rewrite totalVariance_nan_adjustment by apply num_observations_single. }
  assert (E2 : RBA_SD [0%Z; 0%Z] (Fin 1) (Fin 0) = Returns NaN).
  { unfold RBA_SD. rewrite totalVariance_nan_adjustment; [reflexivity |].
    apply num_observations_no_rows; [repeat constructor; discriminate |].
    reflexivity. }
  rewrite E1, E2. repeat split; discriminate.
Qed.







End ErrorClaims.

(** ** [RBA_values] and [commonSenseTesting] *)

Section LimitsClaims.

Local Open Scope R_scope.

Lemma z_95_value : z_95 = 1.96.
Proof. unfold z_95. lra. Qed.

Lemma series_mean_nonempty (l : list R) :
  l <> [] -> series_mean l = Fin (mean l).
Proof. destruct l; [congruence | reflexivity]. Qed.

Lemma INR_length_pos (A : Type) (l : list A) : l <> [] -> 0 < INR (List.length l).
Proof.
  destruct l; [congruence | intros _]. apply lt_0_INR. simpl. lia.
Qed.

Lemma RBA_values_finite (data : Dataset) (SD : R) :
  data <> [] ->
  RBA_values data (Fin SD) =
  (Fin (mean (map variables data)),
   Fin (mean (map variables data) - 1.96 * SD),
   Fin (mean (map variables data) + 1.96 * SD)).
Proof.
  intros Hne. unfold RBA_values.
  rewrite series_mean_nonempty by (destruct data; [congruence | discriminate]).
  rewrite fmul_finite_pos by (unfold z_95; lra).
  rewrite fsub_finite, fadd_finite, z_95_value.
  apply f_equal2; [apply f_equal2; [reflexivity |] |]; apply f_equal; ring.
Qed.

(** Claim C5.  For a non-empty dataset, [RBA_values] returns as bias the
    arithmetic mean of all the values, every row weighing the same,
    whatever the SD; for a finite SD the limits are bias - 1.96 * SD and
    bias + 1.96 * SD; and for any float SD, infinite or NaN included, they
    are these two expressions in float arithmetic. *)
Theorem RBA_values_spec (data : Dataset) :
  data <> [] ->
  (forall SD : npfloat,
      fst (fst (RBA_values data SD)) = Fin (mean (map variables data)))
  /\ (forall SD : R,
         RBA_values data (Fin SD) =
         (Fin (mean (map variables data)),
          Fin (mean (map variables data) - 1.96 * SD),
          Fin (mean (map variables data) + 1.96 * SD)))
  /\ (forall SD : npfloat,
         RBA_values data SD =
         (Fin (mean (map variables data)),
          fsub (Fin (mean (map variables data))) (fmul SD (Fin 1.96)),
          fadd (Fin (mean (map variables data))) (fmul SD (Fin 1.96)))).
Proof.
  intros Hne.
  assert (Hbias : series_mean (map variables data)
                  = Fin (mean (map variables data))).
  { apply series_mean_nonempty. destruct data; [congruence | discriminate]. }
  split; [| split].
  - intros SD. unfold RBA_values. simpl fst. exact Hbias.
  - intros SD. now apply RBA_values_finite.
  - intros SD. unfold RBA_values. now rewrite Hbias, z_95_value.
Qed.

(** Three rows of two subjects, SD = 1. *)
Lemma RBA_values_spec_witness :
  RBA_values [Row "a" 1; Row "a" 2; Row "b" 6] (Fin 1) =
  (Fin (mean [1; 2; 6]), Fin (mean [1; 2; 6] - 1.96 * 1),
   Fin (mean [1; 2; 6] + 1.96 * 1)).
Proof.
  apply (@RBA_values_spec [Row "a" 1; Row "a" 2; Row "b" 6]). discriminate.
Defined.

Lemma within_finite (lo hi : R) (r : row) :
  within (Fin lo) (Fin hi) r
  = Rltb lo (variables r) && Rltb (variables r) hi.
Proof. unfold within, fgt. now rewrite !flt_finite. Qed.

Lemma count_true_map (A : Type) (f : A -> bool) (l : list A) :
  List.length (filter (fun b : bool => b) (map f l)) = List.length (filter f l).
Proof.
  induction l as [| x l IH]; simpl; [reflexivity |].
  destruct (f x); simpl; now rewrite IH.
Qed.

Lemma int_div_nonempty (c n : nat) :
  n <> 0%nat -> Py.int_div (Z.of_nat c) (Z.of_nat n) = Returns (Fin (INR c / INR n)).
Proof.
  intros Hn. unfold Py.int_div.
  destruct (Z.eqb_spec (Z.of_nat n) 0) as [E | E]; [lia |].
  rewrite int_true_divide_pos by lia.
  now rewrite <- !INR_IZR_INZ.
Qed.

Lemma commonSenseTesting_finite (data : Dataset) (lo hi : R) :
  data <> [] ->
  commonSenseTesting data (Fin lo) (Fin hi) =
  Returns (Fin (INR (List.length (strictly_inside lo hi data))
                / INR (List.length data))).
Proof.
  intros Hne. unfold commonSenseTesting, strictly_inside.
  rewrite count_true_map, int_div_nonempty
    by (destruct data; [congruence | discriminate]).
  rewrite (filter_ext _ _ (within_finite lo hi)). reflexivity.
Qed.

(** Claim C6.  For a non-empty dataset and finite limits,
    [commonSenseTesting] returns the number of rows whose value is strictly
    greater than the lower limit and strictly less than the upper one,
    divided by the number of rows; a row whose value equals a limit is not
    counted, and the fraction lies between 0 and 1. *)
Theorem commonSenseTesting_fraction (data : Dataset) (lo hi : R) :
  data <> [] ->
  commonSenseTesting data (Fin lo) (Fin hi) =
  Returns (Fin (INR (List.length (strictly_inside lo hi data))
                / INR (List.length data)))
  /\ (forall r, In r (strictly_inside lo hi data) <->
                In r data /\ lo < variables r < hi)
  /\ (forall r, variables r = lo \/ variables r = hi ->
                ~ In r (strictly_inside lo hi data))
  /\ 0 <= INR (List.length (strictly_inside lo hi data))
          / INR (List.length data) <= 1.
Proof.
  intros Hne.
  assert (Hin : forall r, In r (strictly_inside lo hi data) <->
                          In r data /\ lo < variables r < hi).
  { intros r. unfold strictly_inside. rewrite filter_In, andb_true_iff.
    unfold Rltb.
    destruct (Rlt_dec lo (variables r)), (Rlt_dec (variables r) hi);
      intuition (try discriminate; try lra). }
  split; [now apply commonSenseTesting_finite | split; [exact Hin | split]].
  - intros r Hr Hr'. apply Hin in Hr'. lra.
  - pose proof (INR_length_pos Hne) as HN.
    assert (Hc : (List.length (strictly_inside lo hi data)
                  <= List.length data)%nat) by apply filter_length_le.
    apply le_INR in Hc.
    pose proof (pos_INR (List.length (strictly_inside lo hi data))) as Hc0.
    split.
    + apply Rmult_le_pos; [exact Hc0 | left; now apply Rinv_0_lt_compat].
    + apply Rmult_le_reg_r with (INR (List.length data)); [exact HN |].
      unfold Rdiv. rewrite Rmult_assoc, Rinv_l by lra. lra.
Qed.

(** Values 1, 2, 3 against the limits 1 and 3. *)
Lemma commonSenseTesting_fraction_witness :
  commonSenseTesting [Row "a" 1; Row "a" 2; Row "b" 3] (Fin 1) (Fin 3) =
  Returns (Fin (INR (List.length
                       (strictly_inside 1 3 [Row "a" 1; Row "a" 2; Row "b" 3]))
                / INR 3)).
Proof.
  apply (@commonSenseTesting_fraction [Row "a" 1; Row "a" 2; Row "b" 3] 1 3).
  discriminate.
Defined.

Lemma strictly_inside_degenerate (m : R) (data : Dataset) :
  strictly_inside m m data = [].
Proof.
  unfold strictly_inside. induction data as [| r data IH]; simpl; [reflexivity |].
  unfold Rltb at 1 2.
  destruct (Rlt_dec m (variables r)), (Rlt_dec (variables r) m);
    simpl; try exact IH. lra.
Qed.

(** Claim C10.  For a non-empty dataset and an SD that is zero (of either
    sign), [RBA_values] returns both limits equal to the bias, and
    [commonSenseTesting] on these limits returns exactly 0: the strict
    comparisons exclude every row, also the rows equal to the bias. *)
Theorem zero_SD_excludes_every_row (data : Dataset) (SD : npfloat) :
  data <> [] -> SD = Fin 0 \/ SD = NegZero ->
  RBA_values data SD =
  (Fin (mean (map variables data)), Fin (mean (map variables data)),
   Fin (mean (map variables data)))
  /\ commonSenseTesting data (Fin (mean (map variables data)))
                             (Fin (mean (map variables data)))
     = Returns (Fin 0).
Proof.
  intros Hne HSD. split.
  - unfold RBA_values.
    rewrite series_mean_nonempty by (destruct data; [congruence | discriminate]).
    destruct HSD as [-> | ->].
    + rewrite fmul_finite_pos by (unfold z_95; lra).
      rewrite fsub_finite, fadd_finite.
      apply f_equal2; [apply f_equal2; [reflexivity |] |]; apply f_equal; ring.
    + assert (E : fmul NegZero (Fin z_95) = NegZero).
      { unfold fmul. rewrite (@classify_nonzero z_95) by (unfold z_95; lra).
        simpl. unfold negative. now rewrite Rltb_false by (unfold z_95; lra). }
      rewrite E. unfold fsub.
      replace (fneg NegZero) with (Fin 0) by reflexivity.
      rewrite fadd_finite, fadd_negzero.
      apply f_equal2; [apply f_equal2; [reflexivity |] |]; apply f_equal; ring.
  - rewrite commonSenseTesting_finite, strictly_inside_degenerate by exact Hne.
    simpl List.length. f_equal. f_equal. simpl INR. unfold Rdiv. ring.
Qed.

(** Two rows of value 2: both equal the bias and neither is counted. *)
Lemma zero_SD_excludes_every_row_witness :
  commonSenseTesting [Row "a" 2; Row "b" 2] (Fin (mean [2; 2])) (Fin (mean [2; 2]))
  = Returns (Fin 0).
Proof.
  apply (@zero_SD_excludes_every_row [Row "a" 2; Row "b" 2] (Fin 0)).
  - discriminate.
  - left. reflexivity.
Defined.

End LimitsClaims.

(** ** [observations] *)

Section Counting.

Lemma prefix_refl (s : string) : prefix s s = true.
Proof.
  induction s as [| c s IH]; simpl; [reflexivity |].
  destruct (ascii_dec c c); [exact IH | congruence].
Qed.

(** Once the scan has passed the end of the string nothing more is found. *)
Lemma count_from_skip_all (pat s : string) :
  pat <> EmptyString -> count_from pat (String.length s) s = 0%nat.
Proof.
  intros Hpat. induction s as [| c s IH]; simpl.
  - destruct pat; [congruence | reflexivity].
  - exact IH.
Qed.

Lemma str_count_self (p : string) : str_count p p = 1%nat.
Proof.
  unfold str_count. destruct p as [| c p]; [reflexivity |].
  change (count_from (String c p) 0 (String c p))
    with (if prefix (String c p) (String c p)
          then S (count_from (String c p) (String.length p) p)
          else count_from (String c p) 0 p).
  rewrite prefix_refl, count_from_skip_all by discriminate. reflexivity.
Qed.

Local Open Scope Z_scope.

Lemma Zsum_counts_nonneg (p : string) (ids : list string) :
  Forall (fun n => 0 <= n) (map (fun s => Z.of_nat (str_count p s)) ids).
Proof. apply Forall_forall. intros x Hx. apply in_map_iff in Hx as (s & <- & _). lia. Qed.

(** Where no other identifier contains [p], the occurrences of [p] in the
    column are the rows of [p]. *)
Lemma occurrences_exact (p : string) (data : Dataset) :
  (forall r, In r data -> participants r <> p ->
             str_count p (participants r) = 0%nat) ->
  Zsum (map (fun s => Z.of_nat (str_count p s)) (map participants data))
  = exact_count p data.
Proof.
  unfold exact_count. induction data as [| r data IH]; intros H; [reflexivity |].
  rewrite rows_of_cons. simpl map. simpl Zsum.
  rewrite IH by (intros; apply H; [now right | assumption]).
  destruct (String.eqb_spec (participants r) p) as [E | E].
  - rewrite E, str_count_self. simpl List.length. lia.
  - rewrite (H r) by (trivial; now left). lia.
Qed.

Lemma exact_count_le (p : string) (data : Dataset) :
  0 <= exact_count p data <= Z.of_nat (List.length data).
Proof.
  unfold exact_count, rows_of.
  pose proof (filter_length_le (fun r => String.eqb (participants r) p) data).
  lia.
Qed.

Lemma IZR_Zsum (l : list Z) : IZR (Zsum l) = Rsum (map IZR l).
Proof.
  induction l as [| x l IH]; simpl; [reflexivity |].
  now rewrite plus_IZR, IH.
Qed.

Lemma Rsum_ones (A : Type) (l : list A) :
  Rsum (map (fun _ => 1%R) l) = INR (List.length l).
Proof.
  induction l as [| x l IH]; [reflexivity |].
  change (List.length (x :: l)) with (S (List.length l)).
  rewrite S_INR. simpl. rewrite IH. lra.
Qed.

Lemma exact_counts_total (data : Dataset) :
  Zsum (map (fun p => exact_count p data) (levels data))
  = Z.of_nat (List.length data).
Proof.
  apply eq_IZR. rewrite IZR_Zsum, map_map, <- INR_IZR_INZ.
  rewrite <- (Rsum_ones data).
  rewrite <- (@Rsum_by_subject (fun _ => 1%R) (levels data) data
                (unique_NoDup _) (@levels_cover data)).
  f_equal. apply map_ext. intros p. unfold exact_count.
  now rewrite <- INR_IZR_INZ, Rsum_ones.
Qed.

(** Where the identifiers of the dataset are plain (ASCII, no regex
    metacharacter) and none occurs inside another one, the counts of
    [observations] are the exact ones, in order of first appearance, and
    add up to the number of rows. *)
Theorem observations_exact_without_overlap (data : Dataset) :
  plain_ids data ->
  (forall r r', In r data -> In r' data ->
                participants r' <> participants r ->
                str_count (participants r) (participants r') = 0%nat) ->
  Z.of_nat (List.length data) <= Int64.max_signed ->
  observations data = map (fun p => exact_count p data) (levels data)
  /\ Zsum (observations data) = Z.of_nat (List.length data).
Proof.
  intros _ Hfree Hmax.
  assert (E : observations data
              = map (fun p => exact_count p data) (levels data)).
  { unfold observations, levels. apply map_ext_in. intros p Hp.
    apply unique_In, in_map_iff in Hp as (r & <- & Hr).
    assert (Hocc : Zsum (map (fun s => Z.of_nat (str_count (participants r) s))
                             (map participants data))
                   = exact_count (participants r) data).
    { apply occurrences_exact. intros r' Hr' Hne. now apply Hfree. }
    rewrite np_sum_exact; [exact Hocc | apply Zsum_counts_nonneg |].
    rewrite Hocc. pose proof (exact_count_le (participants r) data). lia. }
  split; [exact E |]. rewrite E. apply exact_counts_total.
Qed.

(** The subjects "a" and "b". *)
Lemma observations_exact_without_overlap_witness :
  observations anova_example
  = map (fun p => exact_count p anova_example) (levels anova_example).
Proof.
  apply (@observations_exact_without_overlap anova_example).
  - repeat constructor.
  - intros r r' Hr Hr' Hne. simpl in Hr, Hr'.
    destruct Hr as [<- | [<- | [<- | []]]];
      destruct Hr' as [<- | [<- | [<- | []]]];
      first [reflexivity | exfalso; apply Hne; reflexivity].
  - discriminate.
Defined.

(** Claim C1 on the code.  On the dataset with one row of subject "P1" and
    one row of subject "P10", [observations] reports 2 for "P1": the row of
    "P10" is counted as well, while exactly one row bears the identifier
    "P1". *)
Theorem observations_conflates_prefix_ids :
  observations prefix_data = [2; 1]
  /\ exact_count "P1" prefix_data = 1
  /\ exact_count "P10" prefix_data = 1.
Proof. repeat split. Qed.

(** Claim C2 on the code.  The same dataset has two distinct subjects with
    one row each, and the counts of [observations] add up to 3, not to the
    2 rows of the dataset. *)
Theorem observations_sum_exceeds_rows :
  levels prefix_data = ["P1"; "P10"]%string
  /\ Forall (fun p => 1 <= exact_count p prefix_data) (levels prefix_data)
  /\ Zsum (observations prefix_data) = 3
  /\ Z.of_nat (List.length prefix_data) = 2.
Proof.
  split; [reflexivity | split; [| split; reflexivity]].
  repeat constructor; discriminate.
Qed.

End Counting.

(** ** Order of the limits and of the rows *)

Section Ordering.

Local Open Scope R_scope.

(** The limits of agreement are never on the wrong side of the bias: for a
    non-empty dataset and a finite SD that is not negative, the bias is not
    below the lower limit, the upper limit is not below the bias, and the
    upper limit is not below the lower one.  (They may coincide: a small SD
    is absorbed by a large bias.) *)
Theorem limits_enclose_bias (data : Dataset) (SD : R) :
  data <> [] -> 0 <= SD ->
  let '(bias, LOA_L, LOA_U) := RBA_values data (Fin SD) in
  flt bias LOA_L = false /\ flt LOA_U bias = false
  /\ flt LOA_U LOA_L = false.
Proof.
  intros Hne HSD. rewrite (RBA_values_finite SD Hne).
  rewrite !flt_finite. repeat split; apply Rltb_false; lra.
Qed.

Lemma commonSense_count_perm (lo hi : npfloat) (data data' : Dataset) :
  Permutation data data' ->
  List.length (filter (fun b : bool => b) (map (within lo hi) data))
  = List.length (filter (fun b : bool => b) (map (within lo hi) data')).
Proof.
  rewrite !count_true_map.
  induction 1 as [| r l l' _ IH | r r' l | l l' l'' _ IH1 _ IH2]; simpl.
  - reflexivity.
  - destruct (within lo hi r); simpl; now rewrite IH.
  - destruct (within lo hi r), (within lo hi r'); reflexivity.
  - now rewrite IH1.
Qed.

(** The fraction does not depend on the order of the rows. *)
Theorem commonSenseTesting_order_independent
  (data data' : Dataset) (LOA_L LOA_U : npfloat) :
  Permutation data data' ->
  commonSenseTesting data LOA_L LOA_U = commonSenseTesting data' LOA_L LOA_U.
Proof.
  intros HP. unfold commonSenseTesting.
  now rewrite (commonSense_count_perm LOA_L LOA_U HP), (Permutation_length HP).
Qed.

End Ordering.

Section OrderingExamples.

Local Open Scope R_scope.

(** Three rows and SD = 2. *)
Lemma limits_enclose_bias_witness :
  let '(bias, LOA_L, LOA_U) :=
    RBA_values [Row "a" 1; Row "a" 2; Row "b" 6] (Fin 2) in
  flt bias LOA_L = false /\ flt LOA_U bias = false
  /\ flt LOA_U LOA_L = false.
Proof.
  apply (@limits_enclose_bias [Row "a" 1; Row "a" 2; Row "b" 6] 2).
  - discriminate.
  - lra.
Defined.

(** Two rows exchanged. *)
Lemma commonSenseTesting_order_independent_witness :
  commonSenseTesting [Row "a" 1; Row "b" 4] (Fin 0) (Fin 2)
  = commonSenseTesting [Row "b" 4; Row "a" 1] (Fin 0) (Fin 2).
Proof.
  apply commonSenseTesting_order_independent. apply perm_swap.
Defined.

End OrderingExamples.

(** ** [RBA_SD] beyond the formula *)

Section VarianceExtras.

Local Open Scope Z_scope.

(** The int64 accumulator holds the exact sum reduced to int64, whatever
    the entries. *)
Lemma fold_add_wrap (l : list Z) : forall acc,
  fold_left Int64.add l (Int64.wrap64 acc) = Int64.wrap64 (acc + Zsum l).
Proof.
  induction l as [| x l IH]; intros acc; simpl.
  - now rewrite Z.add_0_r.
  - unfold Int64.add at 2.
    replace (Int64.wrap64 (Int64.wrap64 acc + x)) with (Int64.wrap64 (acc + x)).
    + rewrite IH. f_equal. lia.
    + apply wrap64_congr.
      rewrite (Z.add_mod (Int64.wrap64 acc)), wrap64_mod, <- Z.add_mod;
        trivial; discriminate.
Qed.

Lemma np_sum_wrap (l : list Z) : Int64.np_sum l = Int64.wrap64 (Zsum l).
Proof.
  unfold Int64.np_sum. change 0 with (Int64.wrap64 0) at 1.
  now rewrite fold_add_wrap.
Qed.

Lemma Zsum_perm (l l' : list Z) : Permutation l l' -> Zsum l = Zsum l'.
Proof. induction 1; simpl; lia. Qed.

Lemma num_observations_perm (obsv obsv' : list Z) :
  Permutation obsv obsv' -> num_observations obsv = num_observations obsv'.
Proof.
  intros HP. unfold num_observations.
  rewrite !np_sum_wrap, (Zsum_perm HP), (Permutation_length HP).
  now rewrite (Zsum_perm (Permutation_map Int64.square HP)).
Qed.

(** The order of the subjects does not matter to [RBA_SD], for any int64
    counts, wrapped or not, and any mean squares. *)
Theorem RBA_SD_order_independent
  (obsv obsv' : list Z) (MS_between MS_within : npfloat) :
  Permutation obsv obsv' ->
  RBA_SD obsv MS_between MS_within = RBA_SD obsv' MS_between MS_within.
Proof.
  intros HP. unfold RBA_SD, totalVariance.
  now rewrite (num_observations_perm HP).
Qed.

Lemma RBA_SD_order_independent_witness :
  RBA_SD [2; 3; 5] (Fin 4) (Fin 1) = RBA_SD [3; 2; 5] (Fin 4) (Fin 1).
Proof.
  apply RBA_SD_order_independent. apply perm_swap.
Defined.

Local Open Scope R_scope.



Lemma flt_fsqrt_zero (x : npfloat) : flt (fsqrt x) (Fin 0) = false.
Proof.
  unfold fsqrt. destruct (classify x) as [| s | s | r] eqn:E.
  - reflexivity.
  - destruct s; [reflexivity |]. unfold flt. rewrite classify_zero. reflexivity.
  - destruct s; simpl.
    + unfold flt. rewrite classify_zero. reflexivity.
    + rewrite flt_finite. apply Rltb_irrefl.
  - destruct (negative r) eqn:N; [reflexivity |].
    rewrite flt_finite. apply Rltb_false. apply sqrt_pos.
Qed.

(** The value [RBA_SD] returns is never below zero: it is a non-negative
    number, a zero, plus infinity or NaN. *)
Theorem RBA_SD_never_negative (obsv : list Z) (MS_between MS_within : npfloat) :
  exists SD, RBA_SD obsv MS_between MS_within = Returns SD
             /\ flt SD (Fin 0) = false /\ SD <> NInf.
Proof.
  eexists. split; [reflexivity | split; [apply flt_fsqrt_zero |]].
  unfold fsqrt.
  destruct (classify (totalVariance obsv MS_between MS_within)) as [| s | s | r];
    try discriminate.
  - destruct s; discriminate.
  - destruct s; discriminate.
  - destruct (negative r); discriminate.
Qed.

Lemma fadd_nan_r (x : npfloat) : fadd x NaN = NaN.
Proof. unfold fadd. destruct (classify x); reflexivity. Qed.

Lemma fdiv_nan_l (y : npfloat) : fdiv NaN y = NaN.
Proof. reflexivity. Qed.

Lemma fneg_nan : fneg NaN = NaN.
Proof. reflexivity. Qed.

Lemma RBA_SD_nan_mean_square (obsv : list Z) (MS_between MS_within : npfloat) :
  MS_between = NaN \/ MS_within = NaN ->
  RBA_SD obsv MS_between MS_within = Returns NaN.
Proof.
  intros [-> | ->]; unfold RBA_SD, totalVariance, fsub.
  - reflexivity.
  - now rewrite fadd_nan_r.
Qed.




End VarianceExtras.

(** ** [commonSenseTesting] and [RBA_values] at the edges *)

Section LimitsExtras.

Local Open Scope R_scope.

Lemma commonSenseTesting_count (data : Dataset) (LOA_L LOA_U : npfloat) :
  data <> [] ->
  commonSenseTesting data LOA_L LOA_U =
  Returns (Fin (INR (List.length (filter (within LOA_L LOA_U) data))
                / INR (List.length data))).
Proof.
  intros Hne. unfold commonSenseTesting.
  rewrite count_true_map, int_div_nonempty
    by (destruct data; [congruence | discriminate]).
  reflexivity.
Qed.

Lemma fraction_bounds (c n : nat) :
  (c <= n)%nat -> n <> 0%nat -> 0 <= INR c / INR n <= 1.
Proof.
  intros Hc Hn.
  assert (HN : 0 < INR n) by (apply lt_0_INR; lia).
  apply le_INR in Hc. pose proof (pos_INR c) as Hc0.
  split.
  - apply Rmult_le_pos; [exact Hc0 | left; now apply Rinv_0_lt_compat].
  - apply Rmult_le_reg_r with (INR n); [exact HN |].
    unfold Rdiv. rewrite Rmult_assoc, Rinv_l by lra. lra.
Qed.

(** [commonSenseTesting] raises, and then [ZeroDivisionError], exactly on
    the empty dataset; on any other dataset it returns a number between 0
    and 1, whatever the limits are, infinite or NaN included. *)
Theorem commonSenseTesting_raises_iff_empty
  (data : Dataset) (LOA_L LOA_U : npfloat) :
  (commonSenseTesting data LOA_L LOA_U = Raises ZeroDivisionError
   <-> data = [])
  /\ (data <> [] ->
      exists q, commonSenseTesting data LOA_L LOA_U = Returns (Fin q)
                /\ 0 <= q <= 1).
Proof.
  assert (Hret : data <> [] ->
     exists q, commonSenseTesting data LOA_L LOA_U = Returns (Fin q)
               /\ 0 <= q <= 1).
  { intros Hne. eexists. split; [now apply commonSenseTesting_count |].
    apply fraction_bounds; [apply filter_length_le |].
    destruct data; [congruence | discriminate]. }
  split; [| exact Hret]. split.
  - intros E. destruct data as [| r data]; [reflexivity |].
    assert (Hne : r :: data <> []) by discriminate.
    destruct (Hret Hne) as (q & Hq & _). congruence.
  - intros ->. reflexivity.
Qed.

Lemma within_infinite (r : row) : within NInf PInf r = true.
Proof.
  unfold within, fgt, flt, classify.
  destruct (Reqb (variables r) 0); reflexivity.
Qed.

Lemma filter_none (A : Type) (f : A -> bool) (l : list A) :
  (forall x, f x = false) -> filter f l = [].
Proof.
  intros H. induction l as [| x l IH]; simpl; [reflexivity |].
  now rewrite H.
Qed.

Lemma filter_all (A : Type) (f : A -> bool) (l : list A) :
  (forall x, f x = true) -> filter f l = l.
Proof.
  intros H. induction l as [| x l IH]; simpl; [reflexivity |].
  now rewrite H, IH.
Qed.

Lemma fmul_nan_l (y : npfloat) : fmul NaN y = NaN.
Proof. reflexivity. Qed.

Lemma fsub_nan_r (x : npfloat) : fsub x NaN = NaN.
Proof. unfold fsub. rewrite fneg_nan. apply fadd_nan_r. Qed.

Lemma fadd_finite_inf (a : R) (s : bool) : fadd (Fin a) (finf s) = finf s.
Proof.
  unfold fadd, classify.
  destruct (Reqb a 0), s; reflexivity.
Qed.

Lemma fmul_pinf_z_95 : fmul PInf (Fin z_95) = PInf.
Proof.
  unfold fmul. rewrite (@classify_nonzero z_95) by (unfold z_95; lra).
  simpl. unfold negative. now rewrite Rltb_false by (unfold z_95; lra).
Qed.

Lemma within_nan (LOA_L LOA_U : npfloat) (r : row) :
  LOA_L = NaN \/ LOA_U = NaN -> within LOA_L LOA_U r = false.
Proof.
  intros [-> | ->]; [reflexivity |].
  unfold within. apply andb_false_iff. right.
  unfold flt, classify. destruct (Reqb (variables r) 0); reflexivity.
Qed.

Lemma RBA_values_nan (data : Dataset) :
  data <> [] ->
  RBA_values data NaN = (Fin (mean (map variables data)), NaN, NaN).
Proof.
  intros Hne. unfold RBA_values.
  rewrite series_mean_nonempty by (destruct data; [congruence | discriminate]).
  now rewrite fmul_nan_l, fsub_nan_r, fadd_nan_r.
Qed.

Lemma commonSenseTesting_nan (data : Dataset) (LOA_L LOA_U : npfloat) :
  data <> [] -> LOA_L = NaN \/ LOA_U = NaN ->
  commonSenseTesting data LOA_L LOA_U = Returns (Fin 0).
Proof.
  intros Hne Hnan.
  rewrite commonSenseTesting_count by exact Hne.
  rewrite (filter_none _ _ (fun r => within_nan r Hnan)).
  simpl List.length. simpl INR. do 2 f_equal. unfold Rdiv. ring.
Qed.

(** What a non-finite SD does to the check: with a NaN SD both limits are
    NaN and the fraction reported is 0 (as soon as one limit is NaN); with
    an infinite SD the limits are minus and plus infinity and the fraction
    is 1.  Neither is an error. *)
Theorem non_finite_SD_fractions (data : Dataset) :
  data <> [] ->
  (RBA_values data NaN = (Fin (mean (map variables data)), NaN, NaN)
   /\ forall LOA_L LOA_U, LOA_L = NaN \/ LOA_U = NaN ->
        commonSenseTesting data LOA_L LOA_U = Returns (Fin 0))
  /\ (RBA_values data PInf = (Fin (mean (map variables data)), NInf, PInf)
      /\ commonSenseTesting data NInf PInf = Returns (Fin 1)).
Proof.
  intros Hne.
  assert (Hbias : series_mean (map variables data)
                  = Fin (mean (map variables data))).
  { apply series_mean_nonempty. destruct data; [congruence | discriminate]. }
  assert (HN : INR (List.length data) <> 0).
  { apply not_0_INR. destruct data; [congruence | discriminate]. }
  split; [split | split].
  - now apply RBA_values_nan.
  - intros LOA_L LOA_U Hnan. now apply commonSenseTesting_nan.
  - unfold RBA_values. rewrite Hbias, fmul_pinf_z_95. unfold fsub.
    change (fneg PInf) with (finf true). rewrite fadd_finite_inf.
    change PInf with (finf false) at 1. rewrite fadd_finite_inf.
    reflexivity.
  - rewrite commonSenseTesting_count, (filter_all _ _ within_infinite)
      by exact Hne.
    do 2 f_equal. now field.
Qed.

Lemma non_finite_SD_fractions_witness :
  commonSenseTesting [Row "a" 1; Row "b" 4] NInf PInf = Returns (Fin 1).
Proof.
  apply (@non_finite_SD_fractions [Row "a" 1; Row "b" 4]). discriminate.
Defined.

Lemma filter_length_mono (A : Type) (f g : A -> bool) (l : list A) :
  (forall x, f x = true -> g x = true) ->
  (List.length (filter f l) <= List.length (filter g l))%nat.
Proof.
  intros H. induction l as [| x l IH]; simpl; [lia |].
  destruct (f x) eqn:F.
  - rewrite (H x F). simpl. lia.
  - destruct (g x); simpl; lia.
Qed.

(** Wider limits never lower the fraction. *)
Theorem commonSenseTesting_monotone (data : Dataset) (lo hi lo' hi' : R) :
  data <> [] -> lo' <= lo -> hi <= hi' ->
  exists q q',
    commonSenseTesting data (Fin lo) (Fin hi) = Returns (Fin q)
    /\ commonSenseTesting data (Fin lo') (Fin hi') = Returns (Fin q')
    /\ q <= q'.
Proof.
  intros Hne Hlo Hhi.
  do 2 eexists. split; [now apply commonSenseTesting_count |].
  split; [now apply commonSenseTesting_count |].
  assert (HN : 0 < INR (List.length data)) by now apply INR_length_pos.
  apply Rmult_le_compat_r; [left; now apply Rinv_0_lt_compat |].
  apply le_INR. apply filter_length_mono. intros r.
  rewrite !within_finite, !andb_true_iff. unfold Rltb.
  destruct (Rlt_dec lo (variables r)), (Rlt_dec (variables r) hi),
    (Rlt_dec lo' (variables r)), (Rlt_dec (variables r) hi');
    intuition (try discriminate; try lra).
Qed.

Lemma commonSenseTesting_monotone_witness :
  exists q q',
    commonSenseTesting [Row "a" 1; Row "b" 4] (Fin 0) (Fin 2) = Returns (Fin q)
    /\ commonSenseTesting [Row "a" 1; Row "b" 4] (Fin (-1)) (Fin 5)
       = Returns (Fin q')
    /\ q <= q'.
Proof.
  apply (@commonSenseTesting_monotone [Row "a" 1; Row "b" 4] 0 2 (-1) 5);
    [discriminate | lra | lra].
Defined.

End LimitsExtras.

(** ** What [observations] counts in general *)

Section CountingExtras.

Local Open Scope Z_scope.

Lemma str_count_prefix (s t : string) :
  prefix s t = true -> (1 <= str_count s t)%nat.
Proof.
  intros H. unfold str_count. destruct t as [| c t].
  - destruct s; [simpl; lia | discriminate].
  - change (count_from s 0 (String c t))
      with (if prefix s (String c t)
            then S (count_from s (Nat.pred (String.length s)) t)
            else count_from s 0 t).
    rewrite H. lia.
Qed.

Lemma Zsum_map_le (A : Type) (f g : A -> Z) (l : list A) :
  (forall x, In x l -> f x <= g x) -> Zsum (map f l) <= Zsum (map g l).
Proof.
  induction l as [| x l IH]; intros H; simpl; [lia |].
  assert (f x <= g x) by (apply H; now left).
  assert (Zsum (map f l) <= Zsum (map g l)) by (apply IH; intros; apply H; now right).
  lia.
Qed.

Lemma exact_le_occurrences (p : string) (data : Dataset) :
  exact_count p data <= occurrences p data.
Proof.
  unfold exact_count, occurrences.
  induction data as [| r data IH]; [simpl; lia |].
  rewrite rows_of_cons. simpl map. simpl Zsum.
  destruct (String.eqb_spec (participants r) p) as [E | E].
  - rewrite E, str_count_self. simpl List.length. lia.
  - lia.
Qed.

(** Rows of [t] count for [s] as soon as [s] occurs in [t]. *)
Lemma occurrences_of_contained (s t : string) (data : Dataset) :
  s <> t -> (1 <= str_count s t)%nat ->
  exact_count s data + exact_count t data <= occurrences s data.
Proof.
  intros Hne Hocc. unfold exact_count, occurrences.
  induction data as [| r data IH]; [simpl; lia |].
  rewrite !rows_of_cons. simpl map. simpl Zsum.
  destruct (String.eqb_spec (participants r) s) as [E | E].
  - destruct (String.eqb_spec (participants r) t) as [E' | E']; [congruence |].
    rewrite E, str_count_self. simpl List.length. lia.
  - destruct (String.eqb_spec (participants r) t) as [E' | E'].
    + rewrite E'. simpl List.length. lia.
    + lia.
Qed.

Lemma observations_occurrences (data : Dataset) :
  (forall p, In p (levels data) -> occurrences p data <= Int64.max_signed) ->
  observations data = map (fun p => occurrences p data) (levels data).
Proof.
  intros Hmax. unfold observations, levels. apply map_ext_in. intros p Hp.
  apply np_sum_exact; [apply Zsum_counts_nonneg | now apply Hmax].
Qed.

Lemma exact_count_pos (p : string) (data : Dataset) :
  In p (levels data) -> 1 <= exact_count p data.
Proof.
  intros Hp. apply unique_In, in_map_iff in Hp as (r & <- & Hr).
  unfold exact_count, rows_of.
  assert (Hin : In r (filter (fun r' => String.eqb (participants r')
                                                   (participants r)) data)).
  { apply filter_In. split; [exact Hr | apply String.eqb_refl]. }
  destruct (filter _ data); [contradiction | simpl List.length; lia].
Qed.

(** For plain identifiers (ASCII, no regex metacharacter), and as long as
    no count leaves the int64 range, [observations] returns one count per
    distinct identifier, each at least the number of rows bearing exactly
    that identifier and at least 1; the counts add up to the number of rows
    or more. *)
Theorem observations_never_undercounts (data : Dataset) :
  plain_ids data ->
  (forall p, In p (levels data) -> occurrences p data <= Int64.max_signed) ->
  List.length (observations data) = List.length (levels data)
  /\ Forall2 (fun p c => 1 <= exact_count p data <= c)
             (levels data) (observations data)
  /\ Z.of_nat (List.length data) <= Zsum (observations data).
Proof.
  intros _ Hmax. rewrite (observations_occurrences data Hmax).
  split; [apply length_map | split].
  - assert (H : forall l, (forall p, In p l -> In p (levels data)) ->
                Forall2 (fun p c => 1 <= exact_count p data <= c)
                        l (map (fun p => occurrences p data) l)).
    { induction l as [| p l IH]; intros Hl; simpl; constructor.
      - split; [apply exact_count_pos, Hl; now left |
                apply exact_le_occurrences].
      - apply IH. intros q Hq. apply Hl. now right. }
    apply H. trivial.
  - rewrite <- (exact_counts_total data). apply Zsum_map_le.
    intros p _. apply exact_le_occurrences.
Qed.

Lemma observations_never_undercounts_witness :
  Z.of_nat (List.length prefix_data) <= Zsum (observations prefix_data).
Proof.
  apply (@observations_never_undercounts prefix_data);
    [repeat constructor |].
  intros p Hp. simpl in Hp. destruct Hp as [<- | [<- | []]]; discriminate.
Defined.

(** For plain identifiers (ASCII, no regex metacharacter): whenever an
    identifier [s] of the dataset is a prefix of another identifier [t] of
    the dataset, the count reported for [s] includes all the rows of [t]:
    it exceeds the number of rows of [s]. *)
Theorem observations_prefix_overcount (data : Dataset) (s t : string) :
  plain_ids data ->
  In s (map participants data) -> In t (map participants data) ->
  s <> t -> prefix s t = true ->
  (forall p, In p (levels data) -> occurrences p data <= Int64.max_signed) ->
  exists i c,
    nth_error (levels data) i = Some s
    /\ nth_error (observations data) i = Some c
    /\ exact_count s data + exact_count t data <= c
    /\ exact_count s data < c.
Proof.
  intros _ Hs Ht Hne Hpre Hmax.
  apply unique_In in Hs. apply unique_In in Ht. fold (levels data) in Hs, Ht.
  destruct (In_nth_error _ _ Hs) as (i & Hi).
  exists i, (occurrences s data).
  pose proof (occurrences_of_contained data Hne (str_count_prefix _ _ Hpre)) as Hc.
  pose proof (exact_count_pos _ _ Ht) as Hpos.
  repeat split; trivial; try lia.
  rewrite (observations_occurrences data Hmax).
  exact (map_nth_error (fun p => occurrences p data) _ _ Hi).
Qed.

Lemma observations_prefix_overcount_witness :
  exists i c,
    nth_error (levels prefix_data) i = Some "P1"%string
    /\ nth_error (observations prefix_data) i = Some c
    /\ exact_count "P1" prefix_data + exact_count "P10" prefix_data <= c
    /\ exact_count "P1" prefix_data < c.
Proof.
  apply (@observations_prefix_overcount prefix_data "P1" "P10").
  - repeat constructor.
  - simpl. tauto.
  - simpl. tauto.
  - discriminate.
  - reflexivity.
  - intros p Hp. simpl in Hp. destruct Hp as [<- | [<- | []]]; discriminate.
Defined.

End CountingExtras.

(** ** The whole pipeline *)

Section Pipeline.

Local Open Scope R_scope.

Lemma Rsum_map_nonneg (A : Type) (f : A -> R) (l : list A) :
  (forall x, 0 <= f x) -> 0 <= Rsum (map f l).
Proof.
  intros H. induction l as [| x l IH]; simpl; [lra |].
  pose proof (H x). lra.
Qed.

Lemma SS_between_nonneg (data : Dataset) : 0 <= SS_between data.
Proof.
  apply Rsum_map_nonneg. intros p.
  apply Rmult_le_pos; [apply pos_INR | apply Rle_0_sqr].
Qed.

Lemma SS_within_nonneg (data : Dataset) : 0 <= SS_within data.
Proof.
  apply Rsum_map_nonneg. intros p. apply Rsum_map_nonneg. intros x.
  apply Rle_0_sqr.
Qed.

Lemma ANOVA_MS_under_contract (lib : Dataset -> anova_table) (data : Dataset) :
  anova_contract lib ->
  (2 <= List.length (levels data))%nat ->
  (List.length (levels data) < List.length data)%nat ->
  ANOVA_MS lib data =
  (Fin (SS_between data / (INR (List.length (levels data)) - 1)),
   Fin (SS_within data
        / (INR (List.length data) - INR (List.length (levels data))))).
Proof.
  intros Hlib Hk HN. unfold ANOVA_MS. rewrite (Hlib data Hk HN).
  unfold typ2_table, of_int. simpl.
  rewrite !minus_IZR, <- !INR_IZR_INZ.
  apply lt_INR in HN. apply le_INR in Hk. simpl INR in Hk.
  rewrite !fdiv_finite_pos by lra.
  rewrite rss_intercept_total, rss_full_within.
  apply f_equal2; apply f_equal; f_equal; ring.
Qed.

Lemma observations_exact_counts (data : Dataset) :
  (forall r r', In r data -> In r' data ->
                participants r' <> participants r ->
                str_count (participants r) (participants r') = 0%nat) ->
  (Z.of_nat (List.length data) <= Int64.max_signed)%Z ->
  observations data = map (fun p => exact_count p data) (levels data).
Proof.
  intros Hfree Hmax. rewrite observations_occurrences.
  - apply map_ext_in. intros p Hp.
    apply unique_In, in_map_iff in Hp as (r & <- & Hr).
    apply occurrences_exact. intros r' Hr' Hne. now apply Hfree.
  - intros p Hp. apply unique_In, in_map_iff in Hp as (r & <- & Hr).
    unfold occurrences. rewrite occurrences_exact.
    + pose proof (exact_count_le (participants r) data). lia.
    + intros r' Hr' Hne. now apply Hfree.
Qed.

(** The counts of a dataset meet what [RBA_SD] needs of them. *)
Lemma exact_counts_fit (data : Dataset) :
  (List.length (levels data) < List.length data)%nat ->
  (Z.of_nat (List.length data) * Z.of_nat (List.length data)
   <= Int64.max_signed)%Z ->
  let counts := map (fun p => exact_count p data) (levels data) in
  Forall (fun n => 1 <= n)%Z counts /\ fits_int64 counts.
Proof.
  intros HN Hmax counts.
  assert (Hpos : Forall (fun n => 1 <= n)%Z counts).
  { apply Forall_forall. intros c Hc.
    apply in_map_iff in Hc as (p & <- & Hp). now apply exact_count_pos. }
  split; [exact Hpos |].
  unfold fits_int64, counts.
  rewrite exact_counts_total, length_map.
  repeat split; [now apply Forall_ge1_nonneg | exact Hmax | nia].
Qed.

(** End to end.  Whatever arguments [main] is called with, when the example
    file loads to a frame with plain identifiers (ASCII, no regex
    metacharacter), at least two subjects, more rows than subjects, no
    identifier occurring inside another one and a number of rows whose
    square fits in int64, and the library returns the type II table, [main]
    returns: the frame; the number of rows of each subject in order of
    first appearance; the mean of all values as bias; as SD the
    non-negative number sqrt ((MS_between - MS_within) / h + MS_within)
    built from the analysis-of-variance mean squares and the adjustment
    term h of the counts; the limits bias -/+ 1.96 SD; and the share of
    rows strictly inside these limits.  Nothing is raised and no value is
    NaN or infinite. *)
Theorem main_end_to_end
  (lib : Dataset -> anova_table) (data : Dataset) (A : Type) (args : list A) :
  anova_contract lib ->
  plain_ids data ->
  (2 <= List.length (levels data))%nat ->
  (List.length (levels data) < List.length data)%nat ->
  (forall r r', In r data -> In r' data ->
                participants r' <> participants r ->
                str_count (participants r) (participants r') = 0%nat) ->
  (Z.of_nat (List.length data) * Z.of_nat (List.length data)
   <= Int64.max_signed)%Z ->
  let counts := map (fun p => exact_count p data) (levels data) in
  let MS_between :=
    SS_between data / (INR (List.length (levels data)) - 1) in
  let MS_within :=
    SS_within data
    / (INR (List.length data) - INR (List.length (levels data))) in
  let bias := mean (map variables data) in
  let SD := sqrt ((MS_between - MS_within) / harmonic_adjustment counts
                  + MS_within) in
  main lib (Returns data) args =
  Returns (data, counts, Fin bias, Fin SD,
           Fin (bias - 1.96 * SD), Fin (bias + 1.96 * SD),
           Fin (INR (List.length
                       (strictly_inside (bias - 1.96 * SD)
                                        (bias + 1.96 * SD) data))
                / INR (List.length data)))
  /\ 0 <= SD.
Proof.
  intros Hlib _ Hk HN Hfree Hmax counts MS_between MS_within bias SD.
  assert (Hne : data <> []) by (destruct data; [simpl in HN; lia | discriminate]).
  assert (Hsmall : (Z.of_nat (List.length data) <= Int64.max_signed)%Z).
  { unfold Int64.max_signed in *. nia. }
  pose proof (observations_exact_counts data Hfree Hsmall) as Hobs.
  destruct (exact_counts_fit data HN Hmax) as [Hpos Hfit].
  fold counts in Hobs, Hpos, Hfit.
  assert (Hk' : (2 <= List.length counts)%nat)
    by (unfold counts; now rewrite length_map).
  assert (Hb : 0 <= MS_between).
  { apply le_INR in Hk. simpl INR in Hk.
    apply Rmult_le_pos; [apply SS_between_nonneg |].
    left. apply Rinv_0_lt_compat. lra. }
  assert (Hw : 0 <= MS_within).
  { apply lt_INR in HN.
    apply Rmult_le_pos; [apply SS_within_nonneg |].
    left. apply Rinv_0_lt_compat. lra. }
  pose proof (harmonic_adjustment_ge_1 Hpos Hk') as Hh.
  pose proof (total_variance_nonneg Hb Hw Hh) as Hvar.
  pose proof (Zsum_ge_length Hpos) as HS.
  split; [| apply sqrt_pos].
  unfold main. cbn [Py.bind].
  rewrite (ANOVA_MS_under_contract data Hlib Hk HN), Hobs.
  fold MS_between MS_within.
  unfold RBA_SD.
  rewrite totalVariance_finite by (trivial; try lra; lia).
  rewrite fsqrt_finite by exact Hvar. fold SD.
  unfold Py.bind at 1.
  rewrite (RBA_values_finite SD Hne). fold bias.
  rewrite (commonSenseTesting_finite _ _ Hne).
  reflexivity.
Qed.

Lemma main_end_to_end_witness :
  exists SD,
    0 <= SD /\
    main typ2_table (Returns anova_example) [anova_example] =
    Returns (anova_example, [2%Z; 1%Z], Fin (mean [1; 3; 5]), Fin SD,
             Fin (mean [1; 3; 5] - 1.96 * SD), Fin (mean [1; 3; 5] + 1.96 * SD),
             Fin (INR (List.length
                         (strictly_inside (mean [1; 3; 5] - 1.96 * SD)
                                          (mean [1; 3; 5] + 1.96 * SD)
                                          anova_example))
                  / INR 3)).
Proof.
  eexists. apply and_comm.
  apply (@main_end_to_end typ2_table anova_example _ [anova_example]).
  - intros data _ _. reflexivity.
  - repeat constructor.
  - simpl. lia.
  - simpl. lia.
  - intros r r' Hr Hr' Hne. simpl in Hr, Hr'.
    destruct Hr as [<- | [<- | [<- | []]]];
      destruct Hr' as [<- | [<- | [<- | []]]];
      first [reflexivity | exfalso; apply Hne; reflexivity].
  - discriminate.
Defined.

(** When the example file loads to a non-empty frame with plain
    identifiers and the analysis of variance hands over a NaN mean square,
    [main] does not fail, whatever its arguments: it returns NaN as SD and
    as both limits, and 0 as the share of rows inside them. *)
Theorem main_nan_mean_square
  (lib : Dataset -> anova_table) (data : Dataset) (A : Type) (args : list A) :
  data <> [] ->
  plain_ids data ->
  fst (ANOVA_MS lib data) = NaN \/ snd (ANOVA_MS lib data) = NaN ->
  main lib (Returns data) args =
  Returns (data, observations data, Fin (mean (map variables data)),
           NaN, NaN, NaN, Fin 0).
Proof.
  intros Hne _ Hnan. unfold main. cbn [Py.bind].
  destruct (ANOVA_MS lib data) as [b w]. simpl in Hnan.
  rewrite (RBA_SD_nan_mean_square (observations data) Hnan).
  unfold Py.bind at 1.
  rewrite (RBA_values_nan Hne), (commonSenseTesting_nan Hne (or_introl eq_refl)).
  reflexivity.
Qed.

Lemma main_nan_mean_square_witness :
  main (fun _ => AnovaTable (AnovaRow (Fin 4) (Fin 1))
                            (AnovaRow (Fin 0) (Fin 0)))
       (Returns [Row "a" 1; Row "b" 3]) [0%nat] =
  Returns ([Row "a" 1; Row "b" 3], observations [Row "a" 1; Row "b" 3],
           Fin (mean [1; 3]), NaN, NaN, NaN, Fin 0).
Proof.
  apply main_nan_mean_square; [discriminate | repeat constructor |].
  right. unfold ANOVA_MS. simpl snd. unfold fdiv. now rewrite classify_zero.
Defined.

End Pipeline.

(** ** No residual degrees of freedom *)

Section ZeroResidual.

Lemma unique_aux_length (l : list string) : forall seen,
  (List.length (unique_aux seen l) <= List.length l)%nat.
Proof.
  induction l as [| x l IH]; intros seen; simpl; [lia |].
  destruct (existsb (String.eqb x) seen); simpl.
  - specialize (IH seen). lia.
  - specialize (IH (x :: seen)). lia.
Qed.

Lemma levels_length_le (data : Dataset) :
  (List.length (levels data) <= List.length data)%nat.
Proof.
  unfold levels, unique.
  rewrite <- (length_map participants data). apply unique_aux_length.
Qed.

Lemma exact_counts_fit_le (data : Dataset) :
  (Z.of_nat (List.length data) * Z.of_nat (List.length data)
   <= Int64.max_signed)%Z ->
  let counts := map (fun p => exact_count p data) (levels data) in
  Forall (fun n => 1 <= n)%Z counts /\ fits_int64 counts.
Proof.
  intros Hmax counts.
  pose proof (levels_length_le data) as Hle.
  assert (Hpos : Forall (fun n => 1 <= n)%Z counts).
  { apply Forall_forall. intros c Hc.
    apply in_map_iff in Hc as (p & <- & Hp). now apply exact_count_pos. }
  split; [exact Hpos |].
  unfold fits_int64, counts.
  rewrite exact_counts_total, length_map.
  repeat split; [now apply Forall_ge1_nonneg | exact Hmax | nia].
Qed.

Local Open Scope R_scope.

(** A quotient by a zero of either sign is NaN or infinite. *)
Lemma fdiv_by_zero (x z : npfloat) :
  z = Fin 0 \/ z = NegZero ->
  fdiv x z = NaN \/ exists s, fdiv x z = finf s.
Proof.
  intros [-> | ->]; unfold fdiv; rewrite ?classify_zero; simpl classify;
    destruct (classify x) as [| s | s | r]; eauto.
Qed.

Lemma fadd_inf_r (x : npfloat) (s : bool) :
  fadd x (finf s) = NaN \/ fadd x (finf s) = finf s.
Proof.
  unfold fadd. replace (classify (finf s)) with (VInf s) by (now destruct s).
  destruct (classify x) as [| t | t | r]; auto.
  destruct t, s; simpl; auto.
Qed.

Lemma fdiv_inf_pos (s : bool) (h : R) : 0 < h -> fdiv (finf s) (Fin h) = finf s.
Proof.
  intros Hh. unfold fdiv. rewrite (@classify_nonzero h) by lra.
  replace (classify (finf s)) with (VInf s) by (now destruct s).
  unfold negative. rewrite Rltb_false by lra. now destruct s.
Qed.

Lemma fadd_opposite_inf (s : bool) : fadd (finf (negb s)) (finf s) = NaN.
Proof. now destruct s. Qed.

(** An infinite [MS_within] cancels against the infinite difference it
    produces: the total variance is NaN. *)
Lemma totalVariance_infinite_within
  (obsv : list Z) (MS_between : npfloat) (s : bool) (h : R) :
  num_observations obsv = Fin h -> 0 < h ->
  totalVariance obsv MS_between (finf s) = NaN.
Proof.
  intros Hnum Hh. unfold totalVariance, fsub. rewrite Hnum.
  replace (fneg (finf s)) with (finf (negb s)) by (now destruct s).
  destruct (fadd_inf_r MS_between (negb s)) as [-> | ->].
  - reflexivity.
  - rewrite fdiv_inf_pos by exact Hh. apply fadd_opposite_inf.
Qed.

(** A table without residual degrees of freedom, as for one row per
    subject: whatever its other entries and whatever the arguments of
    [main], when the example file loads to a frame with plain identifiers,
    at least two subjects, no identifier inside another and N^2 within
    int64, [main] raises nothing and returns NaN as SD and as both limits,
    and 0 as the share of rows inside them. *)
Theorem main_zero_residual_df
  (lib : Dataset -> anova_table) (data : Dataset) (A : Type) (args : list A) :
  plain_ids data ->
  (2 <= List.length (levels data))%nat ->
  (forall r r', In r data -> In r' data ->
                participants r' <> participants r ->
                str_count (participants r) (participants r') = 0%nat) ->
  (Z.of_nat (List.length data) * Z.of_nat (List.length data)
   <= Int64.max_signed)%Z ->
  df (tab_Residual (lib data)) = Fin 0
  \/ df (tab_Residual (lib data)) = NegZero ->
  main lib (Returns data) args =
  Returns (data, map (fun p => exact_count p data) (levels data),
           Fin (mean (map variables data)), NaN, NaN, NaN, Fin 0).
Proof.
  intros _ Hk Hfree Hmax Hdf.
  pose proof (levels_length_le data) as Hle.
  assert (Hne : data <> []) by (destruct data; [simpl in Hk; lia | discriminate]).
  assert (Hsmall : (Z.of_nat (List.length data) <= Int64.max_signed)%Z).
  { unfold Int64.max_signed in *. nia. }
  pose proof (observations_exact_counts data Hfree Hsmall) as Hobs.
  destruct (exact_counts_fit_le data Hmax) as [Hpos Hfit].
  set (counts := map (fun p => exact_count p data) (levels data)) in *.
  assert (Hk' : (2 <= List.length counts)%nat)
    by (unfold counts; now rewrite length_map).
  pose proof (harmonic_adjustment_ge_1 Hpos Hk') as Hh.
  pose proof (Zsum_ge_length Hpos) as HS.
  assert (Hnum : num_observations counts = Fin (harmonic_adjustment counts))
    by (apply num_observations_finite; trivial; lia).
  assert (HSD : RBA_SD counts (fst (ANOVA_MS lib data)) (snd (ANOVA_MS lib data))
                = Returns NaN).
  { unfold ANOVA_MS. simpl fst. simpl snd.
    destruct (fdiv_by_zero (sum_sq (tab_Residual (lib data))) Hdf)
      as [-> | (s & ->)].
    - apply RBA_SD_nan_mean_square. now right.
    - unfold RBA_SD.
      rewrite (totalVariance_infinite_within _ _ _ Hnum) by lra.
      reflexivity. }
  unfold main. cbn [Py.bind]. rewrite Hobs.
  destruct (ANOVA_MS lib data) as [b w]. simpl in HSD. rewrite HSD.
  unfold Py.bind at 1.
  rewrite (RBA_values_nan Hne), (commonSenseTesting_nan Hne (or_introl eq_refl)).
  reflexivity.
Qed.

Lemma main_zero_residual_df_witness :
  main (fun _ => AnovaTable (AnovaRow NaN (Fin 1)) (AnovaRow (Fin 0) (Fin 0)))
       (Returns [Row "a" 1; Row "b" 3]) [0%nat] =
  Returns ([Row "a" 1; Row "b" 3], [1%Z; 1%Z], Fin (mean [1; 3]),
           NaN, NaN, NaN, Fin 0).
Proof.
  apply (@main_zero_residual_df
           (fun _ => AnovaTable (AnovaRow NaN (Fin 1)) (AnovaRow (Fin 0) (Fin 0)))
           [Row "a" 1; Row "b" 3] _ [0%nat]).
  - repeat constructor.
  - simpl. lia.
  - intros r r' Hr Hr' Hne. simpl in Hr, Hr'.
    destruct Hr as [<- | [<- | []]]; destruct Hr' as [<- | [<- | []]];
      first [reflexivity | exfalso; apply Hne; reflexivity].
  - discriminate.
  - left. reflexivity.
Defined.

End ZeroResidual.
